(** * Ask-Continue MCP server: the request/response coordination core

    A shallow embedding of [mcp-server-python/server.py]: the callback
    handler ([CallbackHandler.do_POST]), the bind loop of the callback
    listener ([start_callback_server]), port discovery
    ([discover_extension_ports]), one connect round
    ([try_connect_extension]) and the coordinator ([request_user_input]).

    Python values are embedded as the inductive type [json]; the module
    globals ([pending_requests], [main_loop], [current_callback_port],
    [callback_server_ready]) and the asyncio loop are one record [State]
    that every operation threads explicitly.  Behaviour of the world
    outside the program (the marker directory, the companion's HTTP
    answers, bind results, the UUID draw) is an explicit argument, and
    what the program does to the world (HTTP posts, sleeps) is returned as
    a trace of [Event]s.  Library functions whose definition is not part
    of the program ([int], [decode], [json.loads], [str] of compound
    values and of built-in exceptions) are the fields of the class
    [Runtime].

    What the embedding takes for granted:
    - the listener serves one POST at a time ([HTTPServer] is
      single-threaded) and each POST is one step with respect to the
      coroutines; so are the registration of a request and its removal;
    - writing an HTTP response does not fail, and the loop is open, so
      that scheduling on it does not fail; [do_POST_on] drops the second
      assumption and takes the status of the loop as an argument;
    - [PORT_FILE_DIR], when it exists, is a directory that can be listed;
    - messages printed to stderr are left out, except that the
      announcement of a round is kept as the event [Attempt]. *)

From Stdlib Require Import ZArith Floats.SpecFloat Strings.Ascii Strings.String Strings.Byte.
From stdpp Require Import base numbers strings list gmap pretty.

Local Open Scope string_scope.
Local Open Scope Z_scope.

(** ** Python values *)

Set Warnings "-register-all".

(** The values [json.loads] and [response.json()] produce.  A dict is kept
    as its items in insertion order; keys are pairwise distinct. *)
Inductive json : Type :=
| JNull                                  (* None *)
| JBool (b : bool)                       (* True, False *)
| JInt (n : Z)                           (* int *)
| JFloat (x : spec_float)                (* float *)
| JStr (s : string)                      (* str *)
| JList (items : list json)              (* list *)
| JDict (items : list (string * json)).  (* dict *)

(** Exceptions, as far as the program tells them apart.  Every handler of
    the source is [except Exception] (or one of the two httpx classes) and
    the only thing ever done with a caught exception is [str(e)]. *)
Inductive PyExn : Type :=
| Exception (msg : string)               (* Exception(msg), raised by the program *)
| AttributeError (v : json) (attr : string)  (* v has no attribute attr *)
| TypeError (v : json)                   (* unhashable type used as dict key *)
| KeyError (key : json)                  (* dict.pop of a missing key *)
| OSError (errno : option Z)             (* e.errno *)
| ConnectError                           (* httpx.ConnectError *)
| TimeoutException                       (* httpx.TimeoutException *)
| LibraryError (msg : string).           (* raised inside a library call; msg is str(e) *)

(** A computation that returns or raises. *)
Inductive result (A : Type) : Type :=
| Ok (a : A)
| Raise (e : PyExn).
Arguments Ok {A} a.
Arguments Raise {A} e.

#[global] Instance result_ret : MRet result := fun A a => Ok a.
#[global] Instance result_bind : MBind result := fun A B k m =>
  match m with
  | Ok a => k a
  | Raise e => Raise e
  end.

(** Library functions of the Python runtime that the program calls and
    whose definition is not part of it. *)
Class Runtime : Type := {
  py_int : string → result Z;                  (* int(s) on a header value *)
  utf8_decode : list Byte.byte → result string;  (* bytes.decode("utf-8") *)
  json_loads : string → result json;           (* json.loads(s) *)
  py_repr : json → string;                     (* str(v) for float, list and dict *)
  builtin_str : PyExn → string                 (* str(e) for an exception the runtime builds *)
}.

(** [bool(v)]: the truth value Python gives [v] in [if v:]. *)
Definition truthy (v : json) : bool :=
  match v with
  | JNull => false
  | JBool b => b
  | JInt n => negb (Z.eqb n 0)
  | JFloat (S754_zero _) => false
  | JFloat _ => true
  | JStr s => negb (String.eqb s "")
  | JList items => match items with [] => false | _ => true end
  | JDict items => match items with [] => false | _ => true end
  end.

Fixpoint assoc (key : string) (items : list (string * json)) : option json :=
  match items with
  | [] => None
  | (k, v) :: rest => if String.eqb k key then Some v else assoc key rest
  end.

(** [data.get(key, default)]; on anything but a dict the attribute lookup
    raises [AttributeError]. *)
Definition get (data : json) (key : string) (dflt : json) : result json :=
  match data with
  | JDict items => Ok (default dflt (assoc key items))
  | _ => Raise (AttributeError data "get")
  end.

Section WithRuntime.
Context {rt : Runtime}.

(** [str(v)], as used by the f-strings of the program. *)
Definition py_str (v : json) : string :=
  match v with
  | JNull => "None"
  | JBool true => "True"
  | JBool false => "False"
  | JInt n => pretty n
  | JStr s => s
  | _ => py_repr v
  end.

(** [str(e)] *)
Definition str_exn (e : PyExn) : string :=
  match e with
  | Exception msg => msg
  | LibraryError msg => msg
  | _ => builtin_str e
  end.


(** ** The shared state

    The module globals and the asyncio event loop.  An [asyncio.Future] is
    named by its index in [futures]; [ready] holds the callbacks handed to
    [call_soon_threadsafe] that the loop has not run yet. *)

Definition Future := nat.

Inductive FutureState : Type :=
| Pending
| Finished (value : json)        (* set_result(value) *)
| Failed (e : PyExn).            (* set_exception(e) *)

Inductive Handle : Type :=
| SetResult (f : Future) (value : json)
| SetException (f : Future) (e : PyExn).

Inductive LoopRef : Type := RunningLoop.

Record State : Type := {
  pending_requests : gmap string Future;
  main_loop : option LoopRef;
  current_callback_port : Z;
  callback_server_ready : bool;
  futures : list FutureState;
  ready : list Handle
}.

Definition set_pending_requests (m : gmap string Future) (st : State) : State :=
  {| pending_requests := m; main_loop := main_loop st;
     current_callback_port := current_callback_port st;
     callback_server_ready := callback_server_ready st;
     futures := futures st; ready := ready st |}.

Definition set_futures (fs : list FutureState) (st : State) : State :=
  {| pending_requests := pending_requests st; main_loop := main_loop st;
     current_callback_port := current_callback_port st;
     callback_server_ready := callback_server_ready st;
     futures := fs; ready := ready st |}.

Definition set_ready (hs : list Handle) (st : State) : State :=
  {| pending_requests := pending_requests st; main_loop := main_loop st;
     current_callback_port := current_callback_port st;
     callback_server_ready := callback_server_ready st;
     futures := futures st; ready := hs |}.

(** [main_loop.call_soon_threadsafe(callback, arg)] *)
Definition call_soon_threadsafe (h : Handle) (st : State) : State :=
  set_ready (ready st ++ [h]) st.

(** The loop runs one scheduled callback.  [set_result] and
    [set_exception] on a future that is already done raise
    [InvalidStateError] inside the callback, which the loop reports and
    drops: the future keeps its first outcome. *)
Definition resolve (f : Future) (outcome : FutureState) (fs : list FutureState)
  : list FutureState :=
  match fs !! f with
  | Some Pending => <[f := outcome]> fs
  | _ => fs
  end.

Definition run_handle (h : Handle) (fs : list FutureState) : list FutureState :=
  match h with
  | SetResult f value => resolve f (Finished value) fs
  | SetException f e => resolve f (Failed e) fs
  end.

(** One iteration of the loop: every callback scheduled so far runs, in
    the order it was scheduled. *)
Definition run_ready (st : State) : State :=
  set_ready [] (set_futures (foldl (fun fs h => run_handle h fs) (futures st) (ready st)) st).

(** ** CallbackHandler.do_POST *)

Record Request : Type := {
  path : string;
  content_length : option string;     (* the Content-Length header, if sent *)
  rfile : list Byte.byte              (* the bytes the client sends after the headers *)
}.

Record Response : Type := {
  status : Z;
  headers : list (string * string);
  body : option json                  (* the value given to json.dumps and written *)
}.

(** [self.rfile.read(n)] *)
Definition rfile_read (n : Z) (bytes : list Byte.byte) : list Byte.byte :=
  if Z.ltb n 0 then bytes else take (Z.to_nat n) bytes.

(** Lines 56-57, before the [try]: an exception here leaves the handler. *)
Definition read_body (req : Request) : result string :=
  n ← match content_length req with
      | Some s => py_int s
      | None => Ok 0
      end;
  utf8_decode (rfile_read n (rfile req)).

(** [request_id in pending_requests]: the key is hashed first. *)
Definition contains (m : gmap string Future) (key : json) : result bool :=
  match key with
  | JStr s => Ok (bool_decide (is_Some (m !! s)))
  | JList _ | JDict _ => Raise (TypeError key)
  | _ => Ok false
  end.

Definition json_response (code : Z) (payload : json) : Response :=
  {| status := code;
     headers := [("Content-Type", "application/json")];
     body := Some payload |}.

(** [pending_requests.pop(request_id)] *)
Definition pop (key : json) (st : State) : result (Future * State) :=
  match key with
  | JStr s =>
      match pending_requests st !! s with
      | Some future => Ok (future, set_pending_requests (delete s (pending_requests st)) st)
      | None => Raise (KeyError key)
      end
  | JList _ | JDict _ => Raise (TypeError key)
  | _ => Raise (KeyError key)
  end.

Definition truthy_loop (loop : option LoopRef) : bool :=
  match loop with Some _ => true | None => false end.

(** The body of the [try] block (lines 60-82). *)
Definition handle_response (text : string) (st : State) : result (Response * State) :=
  data ← json_loads text;
  request_id ← get data "requestId" JNull;
  user_input ← get data "userInput" (JStr "");
  cancelled ← get data "cancelled" (JBool false);
  found ← contains (pending_requests st) request_id;
  if found && truthy_loop (main_loop st) then
    popped ← pop request_id st;
    let '(future, st) := popped in
    let st :=
      if truthy cancelled
      then call_soon_threadsafe (SetException future (Exception "用户取消了对话")) st
      else call_soon_threadsafe (SetResult future user_input) st in
    Ok (json_response 200 (JDict [("success", JBool true)]), st)
  else
    Ok (json_response 404 (JDict [("error", JStr "Request not found")]), st).

Definition do_POST (req : Request) (st : State) : result Response * State :=
  if String.eqb (path req) "/response" then
    match read_body req with
    | Raise e => (Raise e, st)
    | Ok text =>
        match handle_response text st with
        | Ok (resp, st') => (Ok resp, st')
        | Raise e => (Ok (json_response 400 (JDict [("error", JStr (str_exn e))])), st)
        end
    end
  else (Ok {| status := 404; headers := []; body := None |}, st).


(** ** start_callback_server *)

Definition CALLBACK_PORT_START : Z := 23984.
Definition max_retries : nat := 50.

(** What the operating system answers to the listener thread:
    [HTTPServer(("127.0.0.1", port), CallbackHandler)] returns or raises,
    and [server.serve_forever()] blocks for good ([None]), returns or
    raises. *)
Record BindEnv : Type := {
  bind : Z → result unit;
  serve_forever : Z → option (result unit)
}.

Inductive Listener : Type :=
| Serving (port : Z)      (* blocked in serve_forever *)
| Returned.               (* start_callback_server has returned *)

Definition set_current_callback_port (port : Z) (st : State) : State :=
  {| pending_requests := pending_requests st; main_loop := main_loop st;
     current_callback_port := port;
     callback_server_ready := callback_server_ready st;
     futures := futures st; ready := ready st |}.

(** [callback_server_ready.set()] *)
Definition set_callback_server_ready (st : State) : State :=
  {| pending_requests := pending_requests st; main_loop := main_loop st;
     current_callback_port := current_callback_port st;
     callback_server_ready := true;
     futures := futures st; ready := ready st |}.

(** The [try] body of one iteration (lines 101-106). *)
Definition try_serve (env : BindEnv) (port : Z) (st : State)
  : option (result unit) * State :=
  match bind env port with
  | Raise e => (Some (Raise e), st)
  | Ok _ =>
      let st := set_current_callback_port port st in
      let st := set_callback_server_ready st in
      (serve_forever env port, st)
  end.

Definition address_in_use (errno : option Z) : bool :=
  match errno with
  | Some n => Z.eqb n 10048 || Z.eqb n 48 || Z.eqb n 98
  | None => false
  end.

(** [for i in range(max_retries)], with [port] the loop-carried local. *)
Fixpoint serve_loop (env : BindEnv) (retries : nat) (port : Z) (st : State)
  : Listener * State :=
  match retries with
  | O => (Returned, st)
  | S retries =>
      match try_serve env port st with
      | (None, st) => (Serving port, st)
      | (Some (Ok _), st) => (Returned, st)
      | (Some (Raise (OSError errno)), st) =>
          if address_in_use errno
          then serve_loop env retries (port + 1) st
          else (Returned, set_callback_server_ready st)
      | (Some (Raise _), st) => (Returned, set_callback_server_ready st)
      end
  end.

Definition start_callback_server (env : BindEnv) (st : State) : Listener * State :=
  serve_loop env max_retries CALLBACK_PORT_START st.

(** ** discover_extension_ports *)

Definition DEFAULT_EXTENSION_PORT : Z := 23983.

(** The marker directory [PORT_FILE_DIR] as the program sees it: absent
    ([None]), or the entries [os.listdir] returns, each with what
    [open] followed by [json.load] gives for it. *)
Record PortFile : Type := {
  filename : string;
  load : result json
}.

Definition Directory : Type := option (list PortFile).

(** [s.endswith(suffix)] *)
Definition endswith (s suffix : string) : bool :=
  let n := String.length s in
  let k := String.length suffix in
  (k <=? n)%nat && String.eqb (String.substring (n - k) k s) suffix.

(** The [for filename in os.listdir(...)] loop; [ports] is the list being
    appended to. *)
Fixpoint scan_port_files (files : list PortFile) (ports : list json) : list json :=
  match files with
  | [] => ports
  | file :: rest =>
      if endswith (filename file) ".port" then
        match data ← load file; get data "port" JNull with
        | Ok port =>
            if truthy port
            then scan_port_files rest (ports ++ [port])
            else scan_port_files rest ports
        | Raise _ => scan_port_files rest ports
        end
      else scan_port_files rest ports
  end.

Definition discover_extension_ports (dir : Directory) : list json :=
  let ports :=
    match dir with
    | Some files => scan_port_files files []
    | None => []
    end in
  match ports with
  | [] => [JInt DEFAULT_EXTENSION_PORT]
  | _ => ports
  end.


(** ** try_connect_extension *)

(** What the program does to the outside world, in order. *)
Inductive Event : Type :=
| Attempt (number : Z)                   (* a round is announced (line 219) *)
| Discover (ports : list json)           (* the marker directory is read *)
| Post (url : string) (payload : json)   (* client.post(url, json=payload, timeout=5.0) *)
| Sleep (seconds : Z).                   (* asyncio.sleep(seconds) *)

Record HttpResponse : Type := {
  status_code : Z;
  response_json : result json           (* response.json() *)
}.

(** The outside world during one round: the marker directory, and what
    the [i]-th POST of the round ends in. *)
Record RoundEnv : Type := {
  directory : Directory;
  post : nat → string → json → result HttpResponse
}.

(** How one iteration of the [for port in extension_ports] loop ends. *)
Inductive Step : Type :=
| ReturnNow (r : bool * option string)   (* return *)
| Next (last_error : option string).     (* fall through or continue *)

(** The body of the loop (lines 163-194) on the outcome [reply] of the
    POST to [port]. *)
Definition attempt (port : json) (reply : result HttpResponse)
    (last_error : option string) : Step :=
  let body : result Step :=
    response ← reply;
    if Z.eqb (status_code response) 200 then
      result ← response_json response;
      success ← get result "success" JNull;
      if truthy success then Ok (ReturnNow (true, None)) else Ok (Next last_error)
    else if Z.eqb (status_code response) 500 then
      result ← response_json response;
      error ← get result "error" (JStr "未知");
      details ← get result "details" (JStr "");
      Ok (Next (Some ("扩展返回错误: " ++ py_str error ++ " - " ++ py_str details)))
    else Ok (Next last_error) in
  match body with
  | Ok step => step
  | Raise ConnectError => Next (Some ("无法连接到端口 " ++ py_str port))
  | Raise TimeoutException => Next (Some ("连接端口 " ++ py_str port ++ " 超时"))
  | Raise e => Next (Some (str_exn e))
  end.

Definition ask_url (port : json) : string :=
  "http://127.0.0.1:" ++ py_str port ++ "/ask".

Definition ask_payload (request_id reason : string) (st : State) : json :=
  JDict [("type", JStr "ask_continue");
         ("requestId", JStr request_id);
         ("reason", JStr reason);
         ("callbackPort", JInt (current_callback_port st))].

(** [for port in extension_ports]; [i] counts the POSTs of the round. *)
Fixpoint connect_ports (env : RoundEnv) (payload : json) (i : nat)
    (ports : list json) (last_error : option string)
  : (bool * option string) * list Event :=
  match ports with
  | [] => ((false, last_error), [])
  | port :: rest =>
      let url := ask_url port in
      match attempt port (post env i url payload) last_error with
      | ReturnNow r => (r, [Post url payload])
      | Next last_error =>
          let '(r, trace) := connect_ports env payload (S i) rest last_error in
          (r, Post url payload :: trace)
      end
  end.

Definition try_connect_extension (env : RoundEnv) (request_id reason : string)
    (st : State) : (bool * option string) * list Event :=
  let extension_ports := discover_extension_ports (directory env) in
  let '(r, trace) :=
    connect_ports env (ask_payload request_id reason st) 0 extension_ports None in
  (r, Discover extension_ports :: trace).

(** ** request_user_input *)

Definition MAX_RETRY_COUNT : Z := 5.
Definition RETRY_INTERVAL : Z := 5.

(** [range(lo, hi)] *)
Definition range (lo hi : Z) : list Z := seqZ lo (hi - lo).

(** What follows the failed round [attempt] (lines 228-232). *)
Definition pause (attempt : Z) : list Event :=
  if Z.ltb attempt MAX_RETRY_COUNT then [Sleep RETRY_INTERVAL] else [].

(** [for attempt in range(1, MAX_RETRY_COUNT + 1)] (lines 218-232); the
    result is [(connected, last_error)]. *)
Fixpoint retry_loop (env : Z → RoundEnv) (request_id reason : string) (st : State)
    (attempts : list Z) (last_error : option string)
  : (bool * option string) * list Event :=
  match attempts with
  | [] => ((false, last_error), [])
  | attempt :: rest =>
      let '((success, error), round) :=
        try_connect_extension (env attempt) request_id reason st in
      if success then ((true, last_error), Attempt attempt :: round)
      else
        let last_error := error in
        let '(r, trace) := retry_loop env request_id reason st rest last_error in
        (r, Attempt attempt :: round ++ pause attempt ++ trace)
  end.

(** Where the coroutine stands when it gives up control for good or for
    the wait that has no timeout. *)
Inductive Coroutine : Type :=
| Return (r : bool * json)
| AwaitFuture (future : Future).

Definition connect_failed (last_error : option string) : bool * json :=
  (false, JStr ("无法连接到 VS Code 扩展（已重试 " ++ pretty MAX_RETRY_COUNT ++ " 次）。"
                ++ default "" last_error)).

(** [loop.create_future()] *)
Definition create_future (st : State) : Future * State :=
  (length (futures st), set_futures (futures st ++ [Pending]) st).

(** [pending_requests[request_id] = future] *)
Definition register (request_id : string) (future : Future) (st : State) : State :=
  set_pending_requests (<[request_id := future]> (pending_requests st)) st.

(** [pending_requests.pop(request_id, None)] *)
Definition deregister (request_id : string) (st : State) : State :=
  set_pending_requests (delete request_id (pending_requests st)) st.

(** [f"req_{uuid.uuid4().hex[:12]}"], with [uuid_hex] the draw
    [uuid.uuid4().hex]. *)
Definition new_request_id (uuid_hex : string) : string :=
  "req_" ++ String.substring 0 12 uuid_hex.

(** Lines 205-240: the coroutine up to its [await future]. *)
Definition request_user_input (env : Z → RoundEnv) (uuid_hex reason : string)
    (st : State) : Coroutine * State * list Event :=
  let request_id := new_request_id uuid_hex in
  let '(future, st) := create_future st in
  let st := register request_id future st in
  let '((connected, last_error), trace) :=
    retry_loop env request_id reason st (range 1 (MAX_RETRY_COUNT + 1)) None in
  if negb connected then
    let st := deregister request_id st in
    (Return (connect_failed last_error), st, trace)
  else (AwaitFuture future, st, trace).

(** The state in which the rounds of a request run: after lines 205-210. *)
Definition registered (uuid_hex : string) (st : State) : State :=
  register (new_request_id uuid_hex) (create_future st).1 (create_future st).2.

(** Lines 243-247: [await future] once the loop gives control back;
    [None] while the future is not done. *)
Definition await_future (future : Future) (st : State) : option (bool * json) :=
  match futures st !! future with
  | Some (Finished user_input) => Some (true, user_input)
  | Some (Failed e) => Some (false, JStr (str_exn e))
  | _ => None
  end.

End WithRuntime.

(** The globals as the module body leaves them (lines 30-37). *)
Definition initial_state : State :=
  {| pending_requests := ∅; main_loop := None;
     current_callback_port := CALLBACK_PORT_START;
     callback_server_ready := false;
     futures := []; ready := [] |}.

(** [main_loop = asyncio.get_running_loop()] (line 256) *)
Definition record_main_loop (st : State) : State :=
  {| pending_requests := pending_requests st; main_loop := Some RunningLoop;
     current_callback_port := current_callback_port st;
     callback_server_ready := callback_server_ready st;
     futures := futures st; ready := ready st |}.


Definition handle_future (h : Handle) : Future :=
  match h with
  | SetResult f _ => f
  | SetException f _ => f
  end.

Definition success_response : Response :=
  json_response 200 (JDict [("success", JBool true)]).
Definition not_found_response : Response :=
  json_response 404 (JDict [("error", JStr "Request not found")]).

(** The handle [do_POST] schedules for a callback with these fields. *)
Definition resolution (future : Future) (user_input cancelled : json) : Handle :=
  if truthy cancelled
  then SetException future (Exception "用户取消了对话")
  else SetResult future user_input.


(** [hash(v)] succeeds *)
Definition hashable (v : json) : bool :=
  match v with
  | JList _ | JDict _ => false
  | _ => true
  end.

Definition bad_request_response {rt : Runtime} (e : PyExn) : Response :=
  json_response 400 (JDict [("error", JStr (str_exn e))]).

(** A body the [try] block cannot work with: not JSON, JSON but not an
    object, or an object whose requestId is a list or an object. *)
Inductive malformed {rt : Runtime} (text : string) : Prop :=
| not_json e :
    json_loads text = Raise e → malformed text
| not_object v :
    json_loads text = Ok v → (∀ items, v ≠ JDict items) → malformed text
| unhashable_id items id :
    json_loads text = Ok (JDict items) → assoc "requestId" items = Some id →
    hashable id = false → malformed text.

(** The candidate a marker file stands for, if it is a valid one: its
    name ends in [.port], it loads as a JSON object, and the object names
    a port that counts as true. *)
Definition marker_port (file : PortFile) : option json :=
  if endswith (filename file) ".port" then
    match load file with
    | Ok (JDict items) =>
        match assoc "port" items with
        | Some port => if truthy port then Some port else None
        | None => None
        end
    | _ => None
    end
  else None.

Definition valid_markers (dir : Directory) : list json :=
  match dir with
  | Some files => omap marker_port files
  | None => []
  end.

(** ** Reading the rounds of a request *)

Section Rounds.
Context {rt : Runtime}.
Variables (env : Z → RoundEnv) (request_id reason : string) (st : State).

(** Whether round [k] is accepted, the error it returns, and what it
    does, announcement included. *)
Definition round_ok (k : Z) : bool :=
  (try_connect_extension (env k) request_id reason st).1.1.
Definition round_error (k : Z) : option string :=
  (try_connect_extension (env k) request_id reason st).1.2.
Definition round_events (k : Z) : list Event :=
  Attempt k :: (try_connect_extension (env k) request_id reason st).2.

(** The rounds [ks], each followed by the pause. *)
Definition rounds_with_pause (ks : list Z) : list Event :=
  concat ((fun k => round_events k ++ [Sleep RETRY_INTERVAL])%list <$> ks).

End Rounds.

(** Whether a reply makes the loop return, and the error text it makes
    the loop record ([None]: it records nothing). *)
Definition accepts {rt : Runtime} (reply : result HttpResponse) : bool :=
  match attempt JNull reply None with
  | ReturnNow _ => true
  | Next _ => false
  end.
Definition recorded {rt : Runtime} (port : json) (reply : result HttpResponse)
  : option string :=
  match attempt port reply None with
  | ReturnNow _ => None
  | Next error => error
  end.

(** The numbers of the rounds announced in a trace, and its pauses. *)
Definition rounds_of (trace : list Event) : list Z :=
  omap (fun e => match e with Attempt k => Some k | _ => None end) trace.
Definition sleeps_of (trace : list Event) : list Z :=
  omap (fun e => match e with Sleep s => Some s | _ => None end) trace.

(** The most recent error text among [errors], oldest first. *)
Definition last_recorded (errors : list (option string)) : option string :=
  last (omap id errors).

(** A round reads the marker directory, then posts to the candidates in
    the order discovered and stops at the first that accepts; without
    acceptance it posts to all of them and returns the most recent error
    text among them. *)
Definition in_order_until_accepted {rt : Runtime} (renv : RoundEnv)
    (request_id reason : string) (st : State) : Prop :=
  let ports := discover_extension_ports (directory renv) in
  let payload := ask_payload request_id reason st in
  let reply := fun (j : nat) (p : json) => post renv j (ask_url p) payload in
  let r := try_connect_extension renv request_id reason st in
  ∃ tried,
    tried `prefix_of` ports
    ∧ r.2 = Discover ports :: ((fun p => Post (ask_url p) payload) <$> tried)
    ∧ if r.1.1
      then ∃ pre p,
             tried = (pre ++ [p])%list
             ∧ accepts (reply (length pre) p) = true
             ∧ (∀ j q, pre !! j = Some q → accepts (reply j q) = false)
             ∧ r.1.2 = None
      else tried = ports
           ∧ (∀ j q, ports !! j = Some q → accepts (reply j q) = false)
           ∧ r.1.2 = last_recorded (imap (fun j q => recorded q (reply j q)) ports).

(** ** The process as a whole

    The listener thread and the coroutines on the loop interleave at the
    granularity of these steps: the listener serves one POST; a coroutine
    registers its request (lines 205-210) or, having failed to connect,
    takes it out of the registry (line 235); the loop runs the callbacks
    scheduled so far.  The rounds of a request change nothing in the
    state, so a call of [request_user_input] is a [Register], followed by
    a [Deregister] when it fails, with any steps of the others in
    between. *)
Inductive Action : Type :=
| Callback (req : Request)
| Register (uuid_hex : string)
| Deregister (request_id : string)
| RunLoop.

Section Process.
Context {rt : Runtime}.

Definition act (a : Action) (st : State) : State :=
  match a with
  | Callback req => (do_POST req st).2
  | Register uuid_hex => registered uuid_hex st
  | Deregister request_id => deregister request_id st
  | RunLoop => run_ready st
  end.

Definition run (actions : list Action) (st : State) : State :=
  foldl (fun st a => act a st) st actions.

(** The handles an action passes to [call_soon_threadsafe]. *)
Definition scheduled (a : Action) (st : State) : list Handle :=
  drop (length (ready st)) (ready (act a st)).

(** Every handle scheduled during a run, oldest first. *)
Fixpoint resolutions (actions : list Action) (st : State) : list Handle :=
  match actions with
  | [] => []
  | a :: rest => scheduled a st ++ resolutions rest (act a st)
  end.

End Process.

Definition targets (hs : list Handle) : list Future := handle_future <$> hs.

(** [history] lists every handle scheduled so far.  A registered future
    is pending and has never been scheduled; no two ids share a future;
    no future was scheduled twice. *)
Record consistent (st : State) (history : list Handle) : Prop := {
  registered_pending : ∀ rid f,
    pending_requests st !! rid = Some f →
    futures st !! f = Some Pending ∧ f ∉ targets history;
  registered_once : ∀ rid1 rid2 f,
    pending_requests st !! rid1 = Some f → pending_requests st !! rid2 = Some f →
    rid1 = rid2;
  scheduled_created : ∀ f, f ∈ targets history → (f < length (futures st))%nat;
  scheduled_once : NoDup (targets history);
  ready_recent : ready st `suffix_of` history
}.

Definition wf (st : State) : Prop := consistent st (ready st).

(** The outcome a handle gives its future when the loop runs it. *)
Definition outcome_of (h : Handle) : FutureState :=
  match h with
  | SetResult _ value => Finished value
  | SetException _ e => Failed e
  end.

(** The future of [h] is on its way to the outcome of [h]: it is still
    pending and [h] is the first handle queued for it, or it is done with
    that outcome. *)
Definition resolving (h : Handle) (st : State) : Prop :=
  (futures st !! handle_future h = Some Pending
   ∧ ∃ earlier later,
       ready st = (earlier ++ h :: later)%list ∧ handle_future h ∉ targets earlier)
  ∨ futures st !! handle_future h = Some (outcome_of h).

(** ** A concrete runtime for the examples

    Stand-ins for the library functions, each agreeing with Python on the
    inputs the examples below feed it: [int] on plain decimal digits,
    [decode] on ASCII bytes, [json.loads] on the listed texts. *)
Module Sample.

Definition digit (c : ascii) : option Z :=
  let n := Z.of_nat (Ascii.nat_of_ascii c) in
  if Z.leb 48 n && Z.leb n 57 then Some (n - 48) else None.

Fixpoint digits (s : string) (acc : Z) : option Z :=
  match s with
  | EmptyString => Some acc
  | String c rest =>
      match digit c with
      | Some d => digits rest (10 * acc + d)
      | None => None
      end
  end.

Definition int_of_digits (s : string) : result Z :=
  match s with
  | EmptyString => Raise (LibraryError "invalid literal for int() with base 10")
  | _ =>
      match digits s 0 with
      | Some n => Ok n
      | None => Raise (LibraryError "invalid literal for int() with base 10")
      end
  end.

Definition decode_ascii (bytes : list Byte.byte) : result string :=
  if forallb (fun b => Nat.ltb (Byte.to_nat b) 128) bytes
  then Ok (string_of_list_byte bytes)
  else Raise (LibraryError "'utf-8' codec can't decode byte").

Definition dq : string := String "034"%char EmptyString.

(** ["key": "value"] and ["key": literal] *)
Definition member_str (key value : string) : string :=
  dq ++ key ++ dq ++ ": " ++ dq ++ value ++ dq.
Definition member_lit (key literal : string) : string :=
  dq ++ key ++ dq ++ ": " ++ literal.

Definition rid : string := "req_0123456789ab".

Definition answer_text : string :=
  "{" ++ member_str "requestId" rid ++ ", " ++ member_str "userInput" "go on"
      ++ ", " ++ member_lit "cancelled" "false" ++ "}".
Definition cancel_text : string :=
  "{" ++ member_str "requestId" rid ++ ", " ++ member_lit "cancelled" "true" ++ "}".
Definition no_input_text : string :=
  "{" ++ member_str "requestId" rid ++ "}".
Definition empty_object_text : string := "{}".
Definition list_text : string := "[1, 2]".
Definition list_id_text : string :=
  "{" ++ member_lit "requestId" "[1]" ++ "}".
Definition truncated_text : string := "{" ++ dq ++ "requestId" ++ dq.

Definition loads_table : list (string * json) :=
  [ (answer_text,
     JDict [("requestId", JStr rid); ("userInput", JStr "go on");
            ("cancelled", JBool false)]);
    (cancel_text, JDict [("requestId", JStr rid); ("cancelled", JBool true)]);
    (no_input_text, JDict [("requestId", JStr rid)]);
    (empty_object_text, JDict []);
    (list_text, JList [JInt 1; JInt 2]);
    (list_id_text, JDict [("requestId", JList [JInt 1])]) ].

Definition loads (text : string) : result json :=
  match assoc text loads_table with
  | Some v => Ok v
  | None => Raise (LibraryError "Expecting value")
  end.

Definition runtime : Runtime := {|
  py_int := int_of_digits;
  utf8_decode := decode_ascii;
  json_loads := loads;
  py_repr := fun _ => "<repr>";
  builtin_str := fun _ => "<builtin exception>"
|}.

(** The POST the companion sends with [text] as its body. *)
Definition callback (text : string) : Request :=
  {| path := "/response";
     content_length := Some (pretty (Z.of_nat (String.length text)));
     rfile := list_byte_of_string text |}.

(** A state with the loop recorded and one request pending on future 0. *)
Definition one_pending : State :=
  {| pending_requests := {[ rid := 0%nat ]}; main_loop := Some RunningLoop;
     current_callback_port := CALLBACK_PORT_START;
     callback_server_ready := true;
     futures := [Pending]; ready := [] |}.

Definition reply (code : Z) (payload : json) : result HttpResponse :=
  Ok {| status_code := code; response_json := Ok payload |}.

Definition uuid_hex : string := "0123456789abcdef0123456789abcdef".

(** The state in which the example asks are made: the module globals
    with the loop recorded. *)
Definition started : State := record_main_loop initial_state.

(** No marker directory; the default port refuses the connection in
    rounds 1 to 4 and in round 5 something else answers there with 404. *)
Definition refused_then_404 (k : Z) : RoundEnv :=
  {| directory := None;
     post := fun _ _ _ =>
       if Z.ltb k 5 then Raise ConnectError
       else Ok {| status_code := 404;
                  response_json := Raise (LibraryError "Expecting value") |} |}.

(** No marker directory; the default port times out in rounds 1 to 4 and
    in round 5 answers 200 with an empty JSON object. *)
Definition timeout_then_plain_200 (k : Z) : RoundEnv :=
  {| directory := None;
     post := fun _ _ _ =>
       if Z.ltb k 5 then Raise TimeoutException else reply 200 (JDict []) |}.

(** No companion: no marker directory and nobody listens on the default
    port. *)
Definition nobody_listens (k : Z) : RoundEnv :=
  {| directory := None; post := fun _ _ _ => Raise ConnectError |}.

(** One marker file; the companion it names accepts in round [n]. *)
Definition accepts_in_round (n : Z) (k : Z) : RoundEnv :=
  {| directory :=
       Some [ {| filename := "window-1.port";
                 load := Ok (JDict [("port", JInt 40123)]) |} ];
     post := fun _ _ _ =>
       if Z.eqb k n then reply 200 (JDict [("success", JBool true)])
       else Raise ConnectError |}.

(** Ports 23984 and 23985 are taken, 23986 is free. *)
Definition two_ports_taken : BindEnv :=
  {| bind := fun port =>
       if Z.ltb port 23986 then Raise (OSError (Some 98)) else Ok tt;
     serve_forever := fun _ => None |}.

(** The first bind fails for a reason other than a port in use. *)
Definition permission_denied : BindEnv :=
  {| bind := fun _ => Raise (OSError (Some 13));
     serve_forever := fun _ => None |}.

(** Every port answers the bind with EADDRINUSE (errno 98). *)
Definition all_ports_in_use : BindEnv :=
  {| bind := fun _ => Raise (OSError (Some 98));
     serve_forever := fun _ => None |}.

End Sample.

(** ** Startup (lines 252-260 of [main])

    [main] records the running loop and then starts the listener thread
    on [start_callback_server]. *)
Definition main_startup (env : BindEnv) : Listener * State :=
  start_callback_server env (record_main_loop initial_state).

(** A future nobody can reach any more: it is pending, no id is
    registered for it and no handle for it waits in the queue. *)
Definition abandoned (f : Future) (st : State) : Prop :=
  futures st !! f = Some Pending
  ∧ (∀ rid, pending_requests st !! rid ≠ Some f)
  ∧ f ∉ targets (ready st).

(** The POSTs of a trace, as pairs of URL and payload. *)
Definition posts_of (trace : list Event) : list (string * json) :=
  omap (fun e => match e with Post url payload => Some (url, payload) | _ => None end)
       trace.

(** ** The callback handler on a loop that may be closed

    [call_soon_threadsafe] checks that the loop is open before it queues
    anything, and raises [RuntimeError("Event loop is closed")]
    otherwise.  In [do_POST] the call (lines 69 and 71) comes after the
    [pop] of line 66 and inside the [try]: the exception is answered with
    400 when the request is already out of the registry.  [do_POST]
    above takes the loop to be open; here its status is an argument and
    the state is threaded through the exception. *)
Inductive LoopStatus : Type := LoopOpen | LoopClosed.

Definition call_soon_threadsafe_on (loop : LoopStatus) (h : Handle) (st : State)
  : result State :=
  match loop with
  | LoopOpen => Ok (call_soon_threadsafe h st)
  | LoopClosed => Raise (LibraryError "Event loop is closed")
  end.

Section ClosedLoop.
Context {rt : Runtime}.

(** The body of the [try] block (lines 60-82); the state returned beside
    an exception is the state at the [raise]. *)
Definition handle_response_on (loop : LoopStatus) (text : string) (st : State)
  : result Response * State :=
  let fields :=
    data ← json_loads text;
    request_id ← get data "requestId" JNull;
    user_input ← get data "userInput" (JStr "");
    cancelled ← get data "cancelled" (JBool false);
    found ← contains (pending_requests st) request_id;
    Ok (request_id, user_input, cancelled, found) in
  match fields with
  | Raise e => (Raise e, st)
  | Ok (request_id, user_input, cancelled, found) =>
      if found && truthy_loop (main_loop st) then
        match pop request_id st with
        | Raise e => (Raise e, st)
        | Ok (future, st) =>
            let h :=
              if truthy cancelled
              then SetException future (Exception "用户取消了对话")
              else SetResult future user_input in
            match call_soon_threadsafe_on loop h st with
            | Raise e => (Raise e, st)
            | Ok st => (Ok (json_response 200 (JDict [("success", JBool true)])), st)
            end
        end
      else (Ok (json_response 404 (JDict [("error", JStr "Request not found")])), st)
  end.

Definition do_POST_on (loop : LoopStatus) (req : Request) (st : State)
  : result Response * State :=
  if String.eqb (path req) "/response" then
    match read_body req with
    | Raise e => (Raise e, st)
    | Ok text =>
        match handle_response_on loop text st with
        | (Ok resp, st') => (Ok resp, st')
        | (Raise e, st') =>
            (Ok (json_response 400 (JDict [("error", JStr (str_exn e))])), st')
        end
    end
  else (Ok {| status := 404; headers := []; body := None |}, st).

End ClosedLoop.

(** The answer to a callback that found the loop closed. *)
Definition loop_closed_response : Response :=
  json_response 400 (JDict [("error", JStr "Event loop is closed")]).

(** ** call_tool (lines 309-403)

    What the tool call returns to the model: content items.  The regular
    expressions of the function and [str.strip] are library code, taken
    as the fields of [TextLib]. *)

Inductive Content : Type :=
| TextContent (text : string)
| ImageContent (data mimeType : string).

Class TextLib : Type := {
  strip : string → string;
      (* s.strip() *)
  findall_files : string → list (string * string * string);
      (* re.findall(file_pattern, s): the groups of every match *)
  sub_files : string → string;
      (* re.sub(file_pattern, '', s) *)
  sub_uploaded : string → string;
      (* re.sub(r'\[已上传(图片|文件) \d+: [^\]]+\]', '', s) *)
  match_data_url : string → option (string * string)
      (* re.match(r'data:([^;]+);base64,(.+)', s): groups 1 and 2 *)
}.

Definition nl : string := String "010"%char EmptyString.

(** A byte that continues a UTF-8 character. *)
Definition continuation_byte (c : ascii) : bool :=
  let n := Ascii.nat_of_ascii c in (128 <=? n)%nat && (n <? 192)%nat.

(** [s[:n]]: the first [n] characters of a string kept as UTF-8. *)
Fixpoint take_chars (n : nat) (s : string) : string :=
  match s with
  | EmptyString => EmptyString
  | String c rest =>
      if continuation_byte c then String c (take_chars n rest)
      else match n with
           | O => EmptyString
           | S n' => String c (take_chars n' rest)
           end
  end.

Definition not_connected_text (result : string) : string :=
  "⚠️ VS Code 扩展未连接: " ++ result ++ nl ++ nl ++ "请确保 Ask Continue 扩展已安装并在 Windsurf 中运行。" ++ nl ++ "如果扩展已安装，请尝试重新加载窗口（Cmd+Shift+P → Reload Window）。" ++ nl ++ nl ++ "【注意】本次对话将继续，无需重试调用此工具。".

Definition ended_text : string := "用户选择结束对话。本次对话结束。".

Definition instructions_text (text_only : string) : string :=
  "用户希望继续，并提供了以下指令：" ++ nl ++ nl ++ text_only.

Definition files_only_text : string := "用户希望继续，并附加了文件：".

Definition attachment_text (file_name mime_type base64_data : string) : string :=
  nl ++ "[附件: " ++ file_name ++ "]" ++ nl ++ "类型: " ++ mime_type ++ nl ++ "内容(Base64): " ++ take_chars 100 base64_data ++ "...(已截断)".

Definition reminder_text : string :=
  nl ++ nl ++ "⚠️【强制提醒】请立即执行用户指令。完成后你【必须】再次调用 ask_continue 工具，这是强制要求，不可跳过！".

Definition text_answer (user_input : string) : string :=
  "用户希望继续，并提供了以下指令：" ++ nl ++ nl ++ user_input ++ nl ++ nl ++ "⚠️【强制提醒】请立即执行以上指令。完成后你【必须】再次调用 ask_continue 工具，这是强制要求，不可跳过！".

Section CallTool.
Context {rt : Runtime} {tl : TextLib}.

(** [for file_type, file_name, data_url in matches] (lines 364-383) *)
Fixpoint render_files (matches : list (string * string * string))
    (parsed_result : list Content) : list Content :=
  match matches with
  | [] => parsed_result
  | (file_type, file_name, data_url) :: rest =>
      match match_data_url data_url with
      | Some (mime_type, base64_data) =>
          if String.prefix "image/" mime_type
          then render_files rest (parsed_result ++ [ImageContent base64_data mime_type])
          else render_files rest
                 (parsed_result
                    ++ [TextContent (attachment_text file_name mime_type base64_data)])
      | None => render_files rest parsed_result
      end
  end.

(** Lines 318-396: what [call_tool] makes of the pair
    [request_user_input] returned. *)
Definition tool_result (r : bool * json) : result (list Content) :=
  let '(success, result) := r in
  if negb success then Ok [TextContent (not_connected_text (py_str result))]
  else
    match result with
    | JStr user_input =>
        if String.eqb (strip user_input) "" then Ok [TextContent ended_text]
        else
          let matches := findall_files user_input in
          match matches with
          | _ :: _ =>
              let text_only := strip (sub_files user_input) in
              let text_only := strip (sub_uploaded text_only) in
              let parsed_result :=
                if negb (String.eqb text_only "")
                then [TextContent (instructions_text text_only)]
                else [TextContent files_only_text] in
              let parsed_result := render_files matches parsed_result in
              Ok (parsed_result ++ [TextContent reminder_text])%list
          | [] => Ok [TextContent (text_answer user_input)]
          end
    | _ => Raise (AttributeError result "strip")
    end.

(** Where a tool call stands: it has returned, or it waits in
    [request_user_input]. *)
Inductive ToolCall : Type :=
| ToolReturn (contents : result (list Content))
| ToolAwait (future : Future).

(** [call_tool(name, arguments)] up to the wait; [reason] is
    [arguments.get("reason")], a string as the tool's input schema
    declares it, [None] when the key is missing. *)
Definition call_tool (env : Z → RoundEnv) (uuid_hex name : string)
    (reason : option string) (st : State) : ToolCall * State * list Event :=
  if String.eqb name "ask_continue" then
    let reason := default "任务已完成" reason in
    match request_user_input env uuid_hex reason st with
    | (Return r, st, trace) => (ToolReturn (tool_result r), st, trace)
    | (AwaitFuture future, st, trace) => (ToolAwait future, st, trace)
    end
  else (ToolReturn (Ok [TextContent ("未知工具: " ++ name)]), st, []).

(** The tool call once its wait is over; [None] while it lasts. *)
Definition call_tool_resume (future : Future) (st : State)
  : option (result (list Content)) :=
  tool_result <$> await_future future st.

(** The item one match of the file pattern contributes, if any. *)
Definition file_item (m : string * string * string) : option Content :=
  match match_data_url m.2 with
  | Some (mime_type, base64_data) =>
      if String.prefix "image/" mime_type
      then Some (ImageContent base64_data mime_type)
      else Some (TextContent (attachment_text m.1.2 mime_type base64_data))
  | None => None
  end.

End CallTool.

(** Stand-ins for the text library in the examples: [strip] for texts
    whose only white space is blanks, tabs and line ends, and the regular
    expressions on the listed texts. *)
Module SampleText.

Definition ascii_space (c : ascii) : bool :=
  let n := Ascii.nat_of_ascii c in
  (n =? 32)%nat || ((9 <=? n)%nat && (n <=? 13)%nat).

Fixpoint lstrip (l : list ascii) : list ascii :=
  match l with
  | c :: rest => if ascii_space c then lstrip rest else l
  | [] => []
  end.

Definition strip_ascii (s : string) : string :=
  string_of_list_ascii
    (rev (lstrip (rev (lstrip (list_ascii_of_string s))))).

Definition picture_url : string := "data:image/png;base64,iVBORw0KGgo=".
Definition notes_url : string := "data:text/plain;base64,aGVsbG8=".

(** An answer with one picture and one text file attached. *)
Definition answer_with_files : string :=
  "see both" ++ nl ++ "[图片 1: shot.png]" ++ nl ++ picture_url ++ nl
  ++ "[文件 2: notes.txt]" ++ nl ++ notes_url.

Definition library : TextLib := {|
  strip := strip_ascii;
  findall_files := fun s =>
    if String.eqb s answer_with_files
    then [("图片", "shot.png", picture_url); ("文件", "notes.txt", notes_url)]
    else [];
  sub_files := fun s =>
    if String.eqb s answer_with_files then "see both" ++ nl ++ nl else s;
  sub_uploaded := fun s => s;
  match_data_url := fun s =>
    if String.eqb s picture_url then Some ("image/png", "iVBORw0KGgo=")
    else if String.eqb s notes_url then Some ("text/plain", "aGVsbG8=")
    else None
|}.

(** Callbacks with a number as userInput, and with the string "false"
    as cancelled. *)
Definition number_text : string :=
  "{" ++ Sample.member_str "requestId" Sample.rid ++ ", "
      ++ Sample.member_lit "userInput" "5" ++ "}".
Definition false_string_text : string :=
  "{" ++ Sample.member_str "requestId" Sample.rid ++ ", "
      ++ Sample.member_str "userInput" "go on" ++ ", "
      ++ Sample.member_str "cancelled" "false" ++ "}".

(** A second request and the callback that answers it. *)
Definition other_uuid_hex : string := "fedcba9876543210fedcba9876543210".
Definition other_rid : string := "req_fedcba987654".
Definition other_answer_text : string :=
  "{" ++ Sample.member_str "requestId" other_rid ++ ", "
      ++ Sample.member_str "userInput" "stop here" ++ "}".

(** A third draw, which agrees with [Sample.uuid_hex] on the first
    twelve digits. *)
Definition colliding_uuid_hex : string := "0123456789ab0000000000000000ffff".

(** The state with both requests registered, on futures 0 and 1. *)
Definition two_pending : State :=
  registered other_uuid_hex (registered Sample.uuid_hex Sample.started).

Definition loads (text : string) : result json :=
  if String.eqb text other_answer_text
  then Ok (JDict [("requestId", JStr other_rid); ("userInput", JStr "stop here")])
  else if String.eqb text number_text
  then Ok (JDict [("requestId", JStr Sample.rid); ("userInput", JInt 5)])
  else if String.eqb text false_string_text
  then Ok (JDict [("requestId", JStr Sample.rid); ("userInput", JStr "go on");
                  ("cancelled", JStr "false")])
  else Sample.loads text.

Definition runtime : Runtime := {|
  py_int := Sample.int_of_digits;
  utf8_decode := Sample.decode_ascii;
  json_loads := loads;
  py_repr := fun _ => "<repr>";
  builtin_str := fun _ => "<builtin exception>"
|}.

End SampleText.
Section Callback.
Context {rt : Runtime}.

Lemma handle_response_dict text st data :
  json_loads text = Ok (JDict data) →
  handle_response text st =
    let request_id := default JNull (assoc "requestId" data) in
    let user_input := default (JStr "") (assoc "userInput" data) in
    let cancelled := default (JBool false) (assoc "cancelled" data) in
    found ← contains (pending_requests st) request_id;
    if found && truthy_loop (main_loop st) then
      popped ← pop request_id st;
      Ok (success_response,
          call_soon_threadsafe (resolution popped.1 user_input cancelled) popped.2)
    else Ok (not_found_response, st).
Proof.
  intros Hload. unfold handle_response. rewrite Hload. simpl.
  destruct (contains _ _) as [found|e]; simpl; [|done].
  destruct (found && _); [|done].
  destruct (pop _ _) as [[future st']|e]; simpl; [|done].
  unfold resolution. by destruct (truthy _).
Qed.

Lemma contains_true m key :
  contains m key = Ok true → ∃ rid f, key = JStr rid ∧ m !! rid = Some f.
Proof.
  destruct key; simpl; try discriminate.
  intros [= Hb]. apply bool_decide_eq_true in Hb as [f Hf]. eauto.
Qed.

Lemma contains_hashable m key :
  hashable key = true →
  contains m key = Ok (match key with
                       | JStr rid => bool_decide (is_Some (m !! rid))
                       | _ => false
                       end).
Proof. by destruct key. Qed.

(** Every callback either leaves the state alone, or it carries the id of
    a registered request and moves that request's future from the
    registry to the loop's queue. *)
Lemma do_POST_inv req st :
  (do_POST req st).2 = st ∧ (do_POST req st).1 ≠ Ok success_response
  ∨ ∃ text data rid f h,
      path req = "/response" ∧ read_body req = Ok text ∧ json_loads text = Ok data
      ∧ get data "requestId" JNull = Ok (JStr rid)
      ∧ pending_requests st !! rid = Some f ∧ main_loop st ≠ None ∧ handle_future h = f
      ∧ do_POST req st =
          (Ok success_response,
           call_soon_threadsafe h (set_pending_requests (delete rid (pending_requests st)) st)).
Proof.
  unfold do_POST. destruct (String.eqb _ _) eqn:Hpath; [|by left].
  apply String.eqb_eq in Hpath.
  destruct (read_body req) as [text|e]; [|by left].
  unfold handle_response.
  destruct (json_loads text) as [data|e] eqn:Hdata; simpl; [|by left].
  destruct (get data "requestId" JNull) as [request_id|e] eqn:Hid; simpl; [|by left].
  destruct (get data "userInput" _) as [user_input|e]; simpl; [|by left].
  destruct (get data "cancelled" _) as [cancelled|e]; simpl; [|by left].
  destruct (contains _ _) as [found|e] eqn:Hc; simpl; [|by left].
  destruct found; simpl; [|by left].
  destruct (main_loop st) as [loop|] eqn:Hloop; simpl; [|by left].
  apply contains_true in Hc as (rid & f & -> & Hf).
  right. exists text, data, rid, f. simpl. rewrite Hf. simpl.
  destruct (truthy cancelled);
    [exists (SetException f (Exception "用户取消了对话"))|exists (SetResult f user_input)];
    repeat (split; [done|]); reflexivity.
Qed.

(** A well-formed callback: the response and the new state as a function
    of the three fields, the registry and the loop reference. *)
Lemma do_POST_well_formed req text data st :
  path req = "/response" → read_body req = Ok text →
  json_loads text = Ok (JDict data) →
  hashable (default JNull (assoc "requestId" data)) = true →
  do_POST req st =
    match default JNull (assoc "requestId" data), main_loop st with
    | JStr rid, Some _ =>
        match pending_requests st !! rid with
        | Some f =>
            (Ok success_response,
             call_soon_threadsafe
               (resolution f (default (JStr "") (assoc "userInput" data))
                             (default (JBool false) (assoc "cancelled" data)))
               (set_pending_requests (delete rid (pending_requests st)) st))
        | None => (Ok not_found_response, st)
        end
    | _, _ => (Ok not_found_response, st)
    end.
Proof.
  intros Hpath Hbody Hload Hhash. unfold do_POST.
  rewrite Hpath, Hbody. cbn [String.eqb Ascii.eqb Bool.eqb]. rewrite (handle_response_dict _ _ _ Hload). simpl.
  rewrite contains_hashable by done.
  destruct (default JNull _) as [| | | |rid| |] eqn:Hid; simpl; try done.
  case_bool_decide as Hsome; simpl.
  - destruct Hsome as [f Hf]. rewrite Hf. by destruct (main_loop st).
  - destruct (pending_requests st !! rid) as [f|] eqn:Hf; [by destruct Hsome; eauto|].
    by destruct (main_loop st).
Qed.

(** A body that is not JSON, or not a JSON object, or whose requestId
    cannot be hashed, is answered 400 and changes nothing. *)
Lemma do_POST_raises req text e st :
  path req = "/response" → read_body req = Ok text →
  handle_response text st = Raise e →
  do_POST req st = (Ok (bad_request_response e), st).
Proof.
  intros Hpath Hbody Hraise. unfold do_POST. by rewrite Hpath, Hbody, Hraise.
Qed.

End Callback.

Example do_POST_answer :
  (do_POST (rt := Sample.runtime) (Sample.callback Sample.answer_text) Sample.one_pending).1
  = Ok (json_response 200 (JDict [("success", JBool true)])).
Proof. vm_compute. reflexivity. Qed.


(** ** The event loop *)

Lemma length_resolve f outcome fs : length (resolve f outcome fs) = length fs.
Proof.
  unfold resolve. destruct (fs !! f) as [[]|]; try done. apply length_insert.
Qed.

Lemma lookup_resolve_ne f g outcome fs : f ≠ g → resolve f outcome fs !! g = fs !! g.
Proof.
  intros Hne. unfold resolve. destruct (fs !! f) as [[]|]; try done.
  by apply list_lookup_insert_ne.
Qed.

Lemma lookup_resolve_pending f outcome fs :
  fs !! f = Some Pending → resolve f outcome fs !! f = Some outcome.
Proof.
  intros Hf. unfold resolve. rewrite Hf.
  apply list_lookup_insert_eq. by eapply lookup_lt_Some.
Qed.

Lemma resolve_done f outcome fs s :
  fs !! f = Some s → s ≠ Pending → resolve f outcome fs = fs.
Proof. intros Hf Hs. unfold resolve. rewrite Hf. by destruct s. Qed.

Lemma run_handle_resolve h fs :
  ∃ outcome, run_handle h fs = resolve (handle_future h) outcome fs.
Proof. destruct h; simpl; eauto. Qed.

Lemma length_run_handles hs fs :
  length (foldl (fun fs h => run_handle h fs) fs hs) = length fs.
Proof.
  revert fs. induction hs as [|h hs IH]; intros fs; simpl; [done|].
  rewrite IH. destruct (run_handle_resolve h fs) as [o ->]. apply length_resolve.
Qed.

Lemma lookup_run_handles_other hs fs f :
  f ∉ targets hs → foldl (fun fs h => run_handle h fs) fs hs !! f = fs !! f.
Proof.
  revert fs. induction hs as [|h hs IH]; intros fs Hf; simpl; [done|].
  unfold targets in Hf. rewrite fmap_cons in Hf.
  apply not_elem_of_cons in Hf as [Hne Hf].
  rewrite IH by done. destruct (run_handle_resolve h fs) as [o ->].
  by apply lookup_resolve_ne.
Qed.

Lemma lookup_run_handles_done hs fs f s :
  fs !! f = Some s → s ≠ Pending →
  foldl (fun fs h => run_handle h fs) fs hs !! f = Some s.
Proof.
  revert fs. induction hs as [|h hs IH]; intros fs Hf Hs; simpl; [done|].
  apply IH; [|done]. destruct (run_handle_resolve h fs) as [o ->].
  destruct (decide (handle_future h = f)) as [->|Hne].
  - by erewrite resolve_done.
  - by rewrite lookup_resolve_ne.
Qed.

(** ** The coordinator's effect on the state *)

Section Coordinator.
Context {rt : Runtime}.

Lemma request_user_input_unfold env uuid_hex reason st :
  request_user_input env uuid_hex reason st =
    let st1 := registered uuid_hex st in
    let r := retry_loop env (new_request_id uuid_hex) reason st1
               (range 1 (MAX_RETRY_COUNT + 1)) None in
    if r.1.1
    then (AwaitFuture (length (futures st)), st1, r.2)
    else (Return (connect_failed r.1.2), deregister (new_request_id uuid_hex) st1, r.2).
Proof.
  unfold request_user_input, registered, create_future. cbn [fst snd].
  destruct (retry_loop _ _ _ _ _ _) as [[connected last_error] trace].
  by destruct connected.
Qed.

(** What a call does to the state is a registration, undone when the
    connection fails. *)
Lemma request_user_input_acts env uuid_hex reason st :
  let r := request_user_input env uuid_hex reason st in
  match r.1.1 with
  | AwaitFuture _ => r.1.2 = run [Register uuid_hex] st
  | Return _ => r.1.2 = run [Register uuid_hex; Deregister (new_request_id uuid_hex)] st
  end.
Proof.
  cbv zeta. rewrite request_user_input_unfold. cbv zeta.
  by destruct (retry_loop _ _ _ _ _ _) as [[[] last_error] trace].
Qed.

End Coordinator.

(** ** The invariant of the registry *)

Section Invariant.
Context {rt : Runtime}.

Lemma consistent_callback req st history :
  consistent st history →
  consistent (act (Callback req) st) (history ++ scheduled (Callback req) st).
Proof.
  intros [Hpend Hinj Hcreated Hnodup Hsuffix]. unfold scheduled. simpl.
  destruct (do_POST_inv req st) as [[-> _]|(text & data & rid & f & h & _ & _ & _ & _ & Hf & _ & Hh & ->)].
  { rewrite drop_all, app_nil_r. by split. }
  simpl. rewrite drop_app_length.
  destruct (Hpend _ _ Hf) as [Hfpend Hfhist].
  split; simpl; unfold targets in *.
  - intros rid' f' Hf'.
    destruct (decide (rid' = rid)) as [->|Hne]; [by rewrite lookup_delete_eq in Hf'|].
    rewrite lookup_delete_ne in Hf' by done.
    destruct (Hpend _ _ Hf') as [? ?]. split; [done|].
    rewrite fmap_app, elem_of_app. intros [?|Hin]; [done|].
    simpl in Hin. apply list_elem_of_singleton in Hin. subst f'.
    rewrite Hh in Hf'. by specialize (Hinj _ _ _ Hf Hf').
  - intros rid1 rid2 f'.
    destruct (decide (rid1 = rid)) as [->|?]; [by rewrite lookup_delete_eq|].
    destruct (decide (rid2 = rid)) as [->|?]; [by rewrite (lookup_delete_eq _ rid)|].
    rewrite !lookup_delete_ne by done. apply Hinj.
  - intros f'. rewrite fmap_app, elem_of_app. intros [?|Hin]; [by apply Hcreated|].
    simpl in Hin. apply list_elem_of_singleton in Hin. subst f'. rewrite Hh.
    by eapply lookup_lt_Some.
  - rewrite fmap_app. apply NoDup_app. split; [done|]. split.
    + intros f' Hin Hin'. simpl in Hin'. apply list_elem_of_singleton in Hin'.
      subst f'. by rewrite Hh in Hin.
    + simpl. apply NoDup_singleton.
  - by apply suffix_app.
Qed.

Lemma consistent_registered uuid_hex st history :
  consistent st history → consistent (registered uuid_hex st) history.
Proof.
  intros [Hpend Hinj Hcreated Hnodup Hsuffix].
  split; unfold registered, register, create_future; simpl.
  - intros rid f. destruct (decide (new_request_id uuid_hex = rid)) as [->|Hne].
    + rewrite lookup_insert_eq. intros [= <-]. split.
      * rewrite lookup_app_r by done. by rewrite Nat.sub_diag.
      * intros Hin. apply Hcreated in Hin. lia.
    + rewrite lookup_insert_ne by done. intros Hf.
      destruct (Hpend _ _ Hf) as [Hfp ?]. split; [|done].
      rewrite lookup_app_l; [done|]. by eapply lookup_lt_Some.
  - assert (Hfresh : ∀ rid, pending_requests st !! rid ≠ Some (length (futures st))).
    { intros rid Hf. destruct (Hpend _ _ Hf) as [Hfp _].
      apply lookup_lt_Some in Hfp. lia. }
    intros rid1 rid2 f.
    destruct (decide (new_request_id uuid_hex = rid1)) as [<-|Hne1];
      destruct (decide (new_request_id uuid_hex = rid2)) as [<-|Hne2];
      rewrite ?lookup_insert_eq, ?lookup_insert_ne by done; try done.
    + intros [= <-] Hf. by destruct (Hfresh _ Hf).
    + intros Hf [= <-]. by destruct (Hfresh _ Hf).
    + apply Hinj.
  - intros f Hin. apply Hcreated in Hin. rewrite length_app. simpl. lia.
  - done.
  - done.
Qed.

Lemma consistent_deregister rid st history :
  consistent st history → consistent (deregister rid st) history.
Proof.
  intros [Hpend Hinj Hcreated Hnodup Hsuffix]. split; unfold deregister; simpl; try done.
  - intros rid' f. destruct (decide (rid' = rid)) as [->|Hne].
    + by rewrite lookup_delete_eq.
    + rewrite lookup_delete_ne by done. apply Hpend.
  - intros rid1 rid2 f.
    destruct (decide (rid1 = rid)) as [->|?]; [by rewrite lookup_delete_eq|].
    destruct (decide (rid2 = rid)) as [->|?]; [by rewrite (lookup_delete_eq _ rid)|].
    rewrite !lookup_delete_ne by done. apply Hinj.
Qed.

Lemma consistent_run_ready st history :
  consistent st history → consistent (run_ready st) history.
Proof.
  intros [Hpend Hinj Hcreated Hnodup Hsuffix]. split; unfold run_ready; simpl; try done.
  - intros rid f Hf. destruct (Hpend _ _ Hf) as [Hfp Hfh]. split; [|done].
    rewrite lookup_run_handles_other; [done|].
    intros Hin. apply Hfh. destruct Hsuffix as [older ->].
    unfold targets in *. rewrite fmap_app, elem_of_app. by right.
  - intros f Hin. rewrite length_run_handles. by apply Hcreated.
  - apply suffix_nil.
Qed.

Lemma consistent_act a st history :
  consistent st history → consistent (act a st) (history ++ scheduled a st).
Proof.
  intros Hc. destruct a as [req|uuid_hex|request_id|].
  - by apply consistent_callback.
  - unfold scheduled. simpl.
    replace (drop _ _) with (@nil Handle) by (symmetry; apply drop_all).
    rewrite app_nil_r. by apply consistent_registered.
  - unfold scheduled. simpl.
    replace (drop _ _) with (@nil Handle) by (symmetry; apply drop_all).
    rewrite app_nil_r. by apply consistent_deregister.
  - unfold scheduled. simpl. rewrite drop_nil, app_nil_r.
    by apply consistent_run_ready.
Qed.

Lemma consistent_run actions st history :
  consistent st history →
  consistent (run actions st) (history ++ resolutions actions st).
Proof.
  revert st history. induction actions as [|a actions IH]; intros st history Hc; simpl.
  - by rewrite app_nil_r.
  - rewrite app_assoc. by apply IH, consistent_act.
Qed.

Lemma consistent_wf st history : consistent st history → wf st.
Proof.
  intros [Hpend Hinj Hcreated Hnodup [older ->]]. unfold targets in *.
  rewrite fmap_app in Hnodup. apply NoDup_app in Hnodup as (_ & _ & Hnodup).
  split; try done.
  - intros rid f Hf. destruct (Hpend _ _ Hf) as [? Hfh]. split; [done|].
    intros Hin. apply Hfh. unfold targets. rewrite fmap_app, elem_of_app. by right.
  - intros f Hin. apply Hcreated. unfold targets. rewrite fmap_app, elem_of_app. by right.
Qed.

Lemma wf_run actions st : wf st → wf (run actions st).
Proof. intros Hwf. by eapply consistent_wf, consistent_run. Qed.

(** The slot is single-assignment: once a future is done, nothing the
    process does changes its outcome. *)
Lemma done_future_stable actions st f s :
  futures st !! f = Some s → s ≠ Pending → futures (run actions st) !! f = Some s.
Proof.
  revert st. induction actions as [|a actions IH]; intros st Hf Hs; simpl; [done|].
  apply IH; [|done]. destruct a as [req|uuid_hex|request_id|]; simpl.
  - destruct (do_POST_inv req st) as [[-> _]|(? & ? & ? & ? & ? & _ & _ & _ & _ & _ & _ & _ & ->)];
      done.
  - unfold registered, register, create_future. simpl.
    rewrite lookup_app_l; [done|by eapply lookup_lt_Some].
  - done.
  - by apply lookup_run_handles_done.
Qed.

Lemma wf_initial_state : wf initial_state.
Proof.
  split; simpl; try done.
  - intros f Hin. by apply elem_of_nil in Hin.
  - constructor.
Qed.

End Invariant.

(** ** The callback listener: correlation *)

Section Correlation.
Context {rt : Runtime}.

Lemma get_dict items key dflt :
  get (JDict items) key dflt = Ok (default dflt (assoc key items)).
Proof. done. Qed.

(** A callback that was answered with success finds its id gone when it
    is delivered again. *)
Lemma do_POST_duplicate req st :
  (do_POST req st).1 = Ok success_response →
  do_POST req (do_POST req st).2 = (Ok not_found_response, (do_POST req st).2).
Proof.
  intros Hok.
  destruct (do_POST_inv req st)
    as [[_ Hne]|(text & data & rid & f & h & Hpath & Hbody & Hload & Hid & Hf & _ & _ & Heq)];
    [done|].
  destruct data as [| | | | | |items]; try discriminate Hid.
  rewrite get_dict in Hid. injection Hid as Hid.
  rewrite Heq. cbn [snd].
  rewrite (do_POST_well_formed _ _ _ _ Hpath Hbody Hload) by by rewrite Hid.
  rewrite Hid. simpl. rewrite lookup_delete_eq. by destruct (main_loop st).
Qed.

(** C1. A result slot is resolved at most once.  In a consistent state
    [st]: (1) a POST /response whose requestId is not a key of the
    registry is answered 404 with the body [{"error": "Request not found"}]
    and leaves the whole state, registry and loop queue, as it was; (2) a
    callback that resolved its request, delivered a second time, is
    answered 404 and again changes nothing; (3) over any further run of
    the process (callbacks, registrations and removals by asks, loop
    iterations, in any order) no future is handed to the loop for
    resolution twice; (4) a future that is done keeps its outcome over
    any further run. *)
Theorem result_slot_resolved_at_most_once st :
  wf st →
  (∀ req text data,
     path req = "/response" → read_body req = Ok text →
     json_loads text = Ok (JDict data) →
     hashable (default JNull (assoc "requestId" data)) = true →
     (∀ rid, assoc "requestId" data = Some (JStr rid) → pending_requests st !! rid = None) →
     do_POST req st = (Ok not_found_response, st))
  ∧ (∀ req,
       (do_POST req st).1 = Ok success_response →
       do_POST req (do_POST req st).2 = (Ok not_found_response, (do_POST req st).2))
  ∧ (∀ actions, NoDup (targets (ready st ++ resolutions actions st)))
  ∧ (∀ actions f s,
       futures st !! f = Some s → s ≠ Pending → futures (run actions st) !! f = Some s).
Proof.
  intros Hwf. split; [|split; [|split]].
  - intros req text data Hpath Hbody Hload Hhash Habsent.
    rewrite (do_POST_well_formed _ _ _ _ Hpath Hbody Hload Hhash).
    destruct (assoc "requestId" data) as [id|] eqn:Hid; simpl; [|done].
    destruct id as [| | | |rid| |]; try done.
    rewrite (Habsent rid eq_refl). by destruct (main_loop st).
  - intros req. apply do_POST_duplicate.
  - intros actions. by destruct (consistent_run actions _ _ Hwf).
  - intros actions f s. apply done_future_stable.
Qed.

(** C10. A well-formed POST /response that arrives while [main_loop] is
    still [None] is answered 404 "Request not found" and leaves the state
    unchanged, whatever the registry holds; the answer is the success
    response exactly when the id is registered and the loop reference is
    recorded. *)
Theorem callback_needs_main_loop req text data st :
  path req = "/response" → read_body req = Ok text →
  json_loads text = Ok (JDict data) →
  hashable (default JNull (assoc "requestId" data)) = true →
  (main_loop st = None → do_POST req st = (Ok not_found_response, st))
  ∧ ((do_POST req st).1 = Ok success_response ↔
     main_loop st ≠ None
     ∧ ∃ rid, assoc "requestId" data = Some (JStr rid)
              ∧ is_Some (pending_requests st !! rid)).
Proof.
  intros Hpath Hbody Hload Hhash.
  rewrite (do_POST_well_formed _ _ _ _ Hpath Hbody Hload Hhash).
  split.
  - intros ->. by destruct (default JNull _).
  - destruct (assoc "requestId" data) as [id|] eqn:Hid; simpl.
    + destruct id as [| | | |rid| |];
        try (split; [done|by intros (_ & rid' & [=] & _)]).
      destruct (main_loop st) as [loop|]; [|split; [done|by intros [? _]]].
      destruct (pending_requests st !! rid) as [f|] eqn:Hf; simpl.
      * split; [|done]. intros _. split; [done|]. exists rid. by rewrite Hf.
      * split; [done|]. intros (_ & rid' & [= <-] & [f Hf']). congruence.
    + split; [done|by intros (_ & rid' & [=] & _)].
Qed.

Lemma malformed_raises text st :
  malformed text → ∃ e, handle_response text st = Raise e.
Proof.
  intros [e Hload|v Hload Hv|items id Hload Hid Hhash]; unfold handle_response; rewrite Hload; simpl.
  - by exists e.
  - exists (AttributeError v "get"). destruct v; try done. by destruct (Hv items).
  - rewrite Hid. simpl. exists (TypeError id). by destruct id.
Qed.

(** C8, as amended.  A POST /response whose body is read but is not JSON,
    is JSON but not an object, or carries a requestId that is a list or
    an object, is answered 400 with an error body and changes nothing:
    every pending request stays registered and a later well-formed
    callback for it is answered with success and resolves it.  A missing
    field does not make a body malformed: without requestId the answer is
    404 "Request not found" and nothing changes, and for a pending
    requestId a missing userInput is read as the empty string and a
    missing cancelled as false, so the request is resolved. *)
Theorem malformed_callback_rejected req text st :
  path req = "/response" → read_body req = Ok text →
  (malformed text →
     (∃ e, do_POST req st = (Ok (bad_request_response e), st))
     ∧ ∀ req2 text2 data rid f,
         pending_requests st !! rid = Some f → main_loop st ≠ None →
         path req2 = "/response" → read_body req2 = Ok text2 →
         json_loads text2 = Ok (JDict data) →
         assoc "requestId" data = Some (JStr rid) →
         do_POST req2 (do_POST req st).2 =
           (Ok success_response,
            call_soon_threadsafe
              (resolution f (default (JStr "") (assoc "userInput" data))
                            (default (JBool false) (assoc "cancelled" data)))
              (deregister rid st)))
  ∧ (∀ data,
       json_loads text = Ok (JDict data) → assoc "requestId" data = None →
       do_POST req st = (Ok not_found_response, st))
  ∧ (∀ data rid f,
       json_loads text = Ok (JDict data) →
       assoc "requestId" data = Some (JStr rid) →
       assoc "userInput" data = None → assoc "cancelled" data = None →
       pending_requests st !! rid = Some f → main_loop st ≠ None →
       do_POST req st =
         (Ok success_response,
          call_soon_threadsafe (SetResult f (JStr "")) (deregister rid st))).
Proof.
  intros Hpath Hbody. split; [|split].
  - intros Hbad. destruct (malformed_raises text st Hbad) as [e He].
    rewrite (do_POST_raises _ _ _ _ Hpath Hbody He). split; [by exists e|].
    intros req2 text2 data rid f Hf Hloop Hpath2 Hbody2 Hload2 Hid. cbn [snd].
    rewrite (do_POST_well_formed _ _ _ _ Hpath2 Hbody2 Hload2) by by rewrite Hid.
    rewrite Hid. simpl. rewrite Hf. by destruct (main_loop st).
  - intros data Hload Hid.
    rewrite (do_POST_well_formed _ _ _ _ Hpath Hbody Hload) by by rewrite Hid.
    rewrite Hid. simpl. by destruct (main_loop st).
  - intros data rid f Hload Hid Hinput Hcancelled Hf Hloop.
    rewrite (do_POST_well_formed _ _ _ _ Hpath Hbody Hload) by by rewrite Hid.
    rewrite Hid, Hinput, Hcancelled. simpl. rewrite Hf. by destruct (main_loop st).
Qed.

End Correlation.

Lemma wf_one_pending : wf Sample.one_pending.
Proof.
  split; simpl.
  - intros rid f [<- <-]%lookup_singleton_Some. split; [done|]. apply not_elem_of_nil.
  - intros rid1 rid2 f [? ?]%lookup_singleton_Some [? ?]%lookup_singleton_Some. congruence.
  - intros f Hin. by apply elem_of_nil in Hin.
  - constructor.
  - done.
Qed.

Lemma result_slot_resolved_at_most_once_witness :
  wf Sample.one_pending
  ∧ do_POST (rt := Sample.runtime) (Sample.callback Sample.answer_text)
      (do_POST (rt := Sample.runtime) (Sample.callback Sample.answer_text)
         Sample.one_pending).2
    = (Ok not_found_response,
       (do_POST (rt := Sample.runtime) (Sample.callback Sample.answer_text)
          Sample.one_pending).2).
Proof.
  split; [exact wf_one_pending|].
  apply (result_slot_resolved_at_most_once (rt := Sample.runtime)
           Sample.one_pending wf_one_pending).
  vm_compute. reflexivity.
Defined.

Lemma callback_needs_main_loop_witness :
  do_POST (rt := Sample.runtime) (Sample.callback Sample.answer_text)
    (register Sample.rid 0%nat initial_state)
  = (Ok not_found_response, register Sample.rid 0%nat initial_state).
Proof.
  apply (callback_needs_main_loop (rt := Sample.runtime)
           (Sample.callback Sample.answer_text) Sample.answer_text
           [("requestId", JStr Sample.rid); ("userInput", JStr "go on");
            ("cancelled", JBool false)]).
  - reflexivity.
  - vm_compute. reflexivity.
  - vm_compute. reflexivity.
  - reflexivity.
  - reflexivity.
Defined.

Lemma malformed_callback_rejected_witness :
  ∃ e, do_POST (rt := Sample.runtime) (Sample.callback Sample.truncated_text)
         Sample.one_pending
       = (Ok (bad_request_response (rt := Sample.runtime) e), Sample.one_pending).
Proof.
  apply (malformed_callback_rejected (rt := Sample.runtime)
           (Sample.callback Sample.truncated_text) Sample.truncated_text).
  - reflexivity.
  - vm_compute. reflexivity.
  - apply (not_json (rt := Sample.runtime) _ (LibraryError "Expecting value")).
    vm_compute. reflexivity.
Defined.

(** C8 fails as stated: a body that is a JSON object without any field is
    answered 404, not 400; a body that names a pending request and lacks
    userInput and cancelled is answered 200, the request leaves the
    registry and is resolved with the empty string. *)
Lemma callback_lacking_fields_not_rejected :
  do_POST (rt := Sample.runtime) (Sample.callback Sample.empty_object_text)
    Sample.one_pending
  = (Ok not_found_response, Sample.one_pending)
  ∧ status not_found_response = 404
  ∧ ∃ st,
      do_POST (rt := Sample.runtime) (Sample.callback Sample.no_input_text)
        Sample.one_pending
      = (Ok success_response, st)
      ∧ status success_response = 200
      ∧ pending_requests st !! Sample.rid = None
      ∧ ready st = [SetResult 0%nat (JStr "")].
Proof.
  split; [vm_compute; reflexivity|]. split; [reflexivity|].
  eexists. split; [vm_compute; reflexivity|]. split; [reflexivity|].
  split; [vm_compute; reflexivity|]. reflexivity.
Defined.

(** ** The callback listener: binding *)

Lemma serve_loop_keeps_ready env retries port st :
  callback_server_ready st = true →
  callback_server_ready (serve_loop env retries port st).2 = true.
Proof.
  revert port st. induction retries as [|retries IH]; intros port st Hready; simpl; [done|].
  unfold try_serve. destruct (bind env port) as [[]|e].
  - destruct (serve_forever env port) as [[[]|e]|]; simpl; try done.
    destruct e; simpl; try done.
    destruct (address_in_use errno); simpl; [|done]. by apply IH.
  - destruct e; simpl; try done.
    destruct (address_in_use errno); simpl; [|done]. by apply IH.
Qed.

(** Every way out of the bind loop sets the readiness event, except
    running out of retries with every probed port in use. *)
Lemma serve_loop_ready env retries port st :
  callback_server_ready (serve_loop env retries port st).2 = true
  ∨ serve_loop env retries port st = (Returned, st)
    ∧ ∀ i : nat, (i < retries)%nat →
        ∃ errno, bind env (port + Z.of_nat i) = Raise (OSError errno)
                 ∧ address_in_use errno = true.
Proof.
  revert port st. induction retries as [|retries IH]; intros port st; simpl.
  { right. split; [done|]. intros i Hi. lia. }
  unfold try_serve. destruct (bind env port) as [[]|e] eqn:Hbind.
  - left. destruct (serve_forever env port) as [[[]|e]|]; simpl; try done.
    destruct e; simpl; try done.
    destruct (address_in_use errno); simpl; [|done].
    by apply serve_loop_keeps_ready.
  - destruct e; simpl; try by left.
    destruct (address_in_use errno) eqn:Huse; simpl; [|by left].
    destruct (IH (port + 1) st) as [?|[Heq Hall]]; [by left|right].
    split; [done|]. intros [|i] Hi.
    + exists errno. by rewrite Z.add_0_r.
    + destruct (Hall i ltac:(lia)) as (errno' & Hb & Hu). exists errno'.
      split; [|done]. rewrite <- Hb. f_equal. lia.
Qed.

Lemma serve_loop_exhausted env retries port st :
  (∀ i : nat, (i < retries)%nat →
     ∃ errno, bind env (port + Z.of_nat i) = Raise (OSError errno)
              ∧ address_in_use errno = true) →
  serve_loop env retries port st = (Returned, st).
Proof.
  revert port. induction retries as [|retries IH]; intros port Hall; simpl; [done|].
  unfold try_serve. destruct (Hall 0%nat ltac:(lia)) as (errno & Hb & Hu).
  rewrite Z.add_0_r in Hb. rewrite Hb, Hu. apply IH.
  intros i Hi. destruct (Hall (S i) ltac:(lia)) as (errno' & Hb' & Hu').
  exists errno'. split; [|done]. rewrite <- Hb'. f_equal. lia.
Qed.

(** The bind loop touches the recorded port and the readiness event
    only. *)
Lemma serve_loop_globals env retries port st :
  pending_requests (serve_loop env retries port st).2 = pending_requests st
  ∧ main_loop (serve_loop env retries port st).2 = main_loop st
  ∧ futures (serve_loop env retries port st).2 = futures st
  ∧ ready (serve_loop env retries port st).2 = ready st.
Proof.
  revert port st. induction retries as [|retries IH]; intros port st; simpl; [done|].
  unfold try_serve. destruct (bind env port) as [[]|e].
  - destruct (serve_forever env port) as [[[]|e]|]; simpl; try done.
    destruct e; simpl; try done.
    destruct (address_in_use errno); simpl; [|done].
    destruct (IH (port + 1)
                (set_callback_server_ready (set_current_callback_port port st)))
      as (-> & -> & -> & ->). done.
  - destruct e; simpl; try done.
    destruct (address_in_use errno); simpl; [|done]. apply IH.
Qed.

Lemma wf_start_callback_server env st :
  wf st → wf (start_callback_server env st).2.
Proof.
  unfold start_callback_server.
  destruct (serve_loop_globals env max_retries CALLBACK_PORT_START st)
    as (Hreg & _ & Hfutures & Hready).
  intros [Hpend Hinj Hcreated Hnodup Hsuffix].
  split; rewrite ?Hreg, ?Hfutures, ?Hready; done.
Qed.

(** C9, where the code departs from it.  The bind loop starts at
    [CALLBACK_PORT_START] and moves one port up on every address-in-use
    failure, for at most [max_retries] binds; when each of the 50 probed
    ports is in use the function returns with the state untouched: the
    readiness event is not set (and the recorded callback port is not
    changed), although both other failure paths set it. *)
Theorem bind_exhausted_without_readiness env st :
  (∀ i : nat, (i < max_retries)%nat →
     ∃ errno, bind env (CALLBACK_PORT_START + Z.of_nat i) = Raise (OSError errno)
              ∧ address_in_use errno = true) →
  start_callback_server env st = (Returned, st)
  ∧ (callback_server_ready st = false →
     callback_server_ready (start_callback_server env st).2 = false).
Proof.
  intros Hall. unfold start_callback_server.
  rewrite (serve_loop_exhausted _ _ _ _ Hall). by split.
Qed.

Lemma bind_exhausted_without_readiness_witness :
  start_callback_server Sample.all_ports_in_use initial_state = (Returned, initial_state)
  ∧ callback_server_ready
      (start_callback_server Sample.all_ports_in_use initial_state).2 = false.
Proof.
  destruct (bind_exhausted_without_readiness Sample.all_ports_in_use initial_state)
    as [Heq Hready].
  - intros i _. exists (Some 98). split; reflexivity.
  - split; [exact Heq|]. apply Hready. reflexivity.
Defined.

(** ** Port discovery *)

Lemma scan_port_files_markers files ports :
  scan_port_files files ports = (ports ++ omap marker_port files)%list.
Proof.
  revert ports. induction files as [|file files IH]; intros ports; simpl.
  { by rewrite app_nil_r. }
  unfold marker_port. destruct (endswith _ _); [|apply IH].
  destruct (load file) as [data|e]; simpl; [|apply IH].
  destruct data as [| | | | | |items]; simpl; try apply IH.
  destruct (assoc "port" items) as [port|]; simpl; [|apply IH].
  destruct (truthy port); [|apply IH].
  rewrite IH. by rewrite <- app_assoc.
Qed.

(** C7. Discovery is a function of the marker directory alone (it is
    given no state and returns none, so the registry is out of its
    reach).  It returns the candidates of the valid marker files, one per
    file and in directory order, and the one-element list holding the
    default port 23983 when the directory is absent or has no valid
    marker file; a file that fails to load is skipped as if it were not
    there. *)
Theorem discover_default_or_markers dir :
  discover_extension_ports dir =
    match valid_markers dir with
    | [] => [JInt DEFAULT_EXTENSION_PORT]
    | ports => ports
    end
  ∧ (dir = None ∨ valid_markers dir = [] →
     discover_extension_ports dir = [JInt 23983])
  ∧ ∀ (before after : list PortFile) file e,
      dir = Some (before ++ file :: after)%list → load file = Raise e →
      discover_extension_ports dir = discover_extension_ports (Some (before ++ after)%list).
Proof.
  assert (Heq : ∀ d, discover_extension_ports d =
                  match valid_markers d with
                  | [] => [JInt DEFAULT_EXTENSION_PORT]
                  | ports => ports
                  end).
  { intros [files|]; unfold discover_extension_ports; simpl; [|done].
    rewrite scan_port_files_markers. simpl. by destruct (omap _ _). }
  split; [apply Heq|split].
  - intros [->|Hnone]; [done|]. by rewrite Heq, Hnone.
  - intros before after file e -> Hload. rewrite !Heq. simpl.
    rewrite !omap_app. simpl. unfold marker_port at 2. rewrite Hload.
    by destruct (endswith _ _).
Qed.

(** ** One connection attempt *)

Section Attempt.
Context {rt : Runtime}.

(** C6, as amended.  One attempt on a candidate ends in one of these
    ways.  A connection refusal records "无法连接到端口 <port>", a timeout
    records "连接端口 <port> 超时", any other exception of the POST records
    its text.  An answer with status exactly 500 and a JSON object as body
    records "扩展返回错误: <error> - <details>" with the companion's error
    text.  An answer with status exactly 200 whose JSON object has a true
    success flag is accepted; without one it is passed over with nothing
    recorded.  An answer with status 200 or 500 whose body is JSON but not
    an object records the text of the [AttributeError] that [result.get]
    raises, and one whose body is not JSON is handled as if the POST had
    raised the decoding error: its text is recorded.  An answer with any
    other status, 2xx or not, is passed over with nothing recorded,
    whatever its body.  Acceptance comes from a status-200 JSON object
    with a true success flag and from nothing else. *)
Theorem attempt_outcomes port reply last_error :
  (reply = Raise ConnectError →
   attempt port reply last_error = Next (Some ("无法连接到端口 " ++ py_str port)))
  ∧ (reply = Raise TimeoutException →
     attempt port reply last_error = Next (Some ("连接端口 " ++ py_str port ++ " 超时")))
  ∧ (∀ e,
       reply = Raise e → e ≠ ConnectError → e ≠ TimeoutException →
       attempt port reply last_error = Next (Some (str_exn e)))
  ∧ (∀ response items,
       reply = Ok response → status_code response = 500 →
       response_json response = Ok (JDict items) →
       attempt port reply last_error =
         Next (Some ("扩展返回错误: "
                     ++ py_str (default (JStr "未知") (assoc "error" items))
                     ++ " - " ++ py_str (default (JStr "") (assoc "details" items)))))
  ∧ (∀ response items,
       reply = Ok response → status_code response = 200 →
       response_json response = Ok (JDict items) →
       attempt port reply last_error =
         if truthy (default JNull (assoc "success" items))
         then ReturnNow (true, None) else Next last_error)
  ∧ (∀ response data,
       reply = Ok response →
       status_code response = 200 ∨ status_code response = 500 →
       response_json response = Ok data → (∀ items, data ≠ JDict items) →
       attempt port reply last_error
       = Next (Some (str_exn (AttributeError data "get"))))
  ∧ (∀ response e,
       reply = Ok response →
       status_code response = 200 ∨ status_code response = 500 →
       response_json response = Raise e →
       attempt port reply last_error = attempt port (Raise e) last_error
       ∧ (e ≠ ConnectError → e ≠ TimeoutException →
          attempt port reply last_error = Next (Some (str_exn e))))
  ∧ (∀ response,
       reply = Ok response →
       status_code response ≠ 200 → status_code response ≠ 500 →
       attempt port reply last_error = Next last_error)
  ∧ (∀ r,
       attempt port reply last_error = ReturnNow r →
       r = (true, None)
       ∧ ∃ response items,
           reply = Ok response ∧ status_code response = 200
           ∧ response_json response = Ok (JDict items)
           ∧ truthy (default JNull (assoc "success" items)) = true).
Proof.
  split; [by intros ->|]. split; [by intros ->|].
  split; [by intros e -> ? ?; destruct e|].
  split; [|split; [|split; [|split; [|split]]]].
  - intros response items -> Hstatus Hjson. unfold attempt. simpl.
    by rewrite Hstatus, Hjson.
  - intros response items -> Hstatus Hjson. unfold attempt. simpl.
    rewrite Hstatus, Hjson. simpl. by destruct (truthy _).
  - intros response data -> Hstatus Hjson Hother. unfold attempt. simpl.
    destruct Hstatus as [-> | ->]; simpl; rewrite Hjson; simpl;
      destruct data as [| | | | | |items]; try done; by destruct (Hother items).
  - intros response e -> Hstatus Hjson. unfold attempt. simpl.
    destruct Hstatus as [-> | ->]; simpl; rewrite Hjson; simpl;
      (split; [done|]); intros ? ?; by destruct e.
  - intros response -> H200 H500. unfold attempt. simpl.
    destruct (Z.eqb_spec (status_code response) 200); [done|].
    by destruct (Z.eqb_spec (status_code response) 500).
  - intros r. unfold attempt. destruct reply as [response|e]; simpl; [|by destruct e].
    destruct (Z.eqb_spec (status_code response) 200) as [H200|].
    + destruct (response_json response) as [data|e] eqn:Hjson; simpl; [|by destruct e].
      destruct data as [| | | | | |items]; simpl; try done.
      destruct (truthy _) eqn:Htrue; [|done]. intros [= <-].
      split; [done|]. by exists response, items.
    + destruct (Z.eqb (status_code response) 500); [|done].
      destruct (response_json response) as [data|e]; simpl; [|by destruct e].
      by destruct data.
Qed.

End Attempt.

(** C6 fails as stated: a 503 answer that carries an error text is not
    mapped to a refusal, nothing is recorded for it; and a 201 answer
    whose body says success is not accepted. *)
Lemma other_status_passed_over :
  attempt (rt := Sample.runtime) (JInt 23983)
    (Sample.reply 503 (JDict [("error", JStr "busy")])) None = Next None
  ∧ attempt (rt := Sample.runtime) (JInt 23983)
      (Sample.reply 201 (JDict [("success", JBool true)])) None = Next None.
Proof. split; reflexivity. Qed.

(** ** One round *)

Section Round.
Context {rt : Runtime}.

Lemma attempt_accepts port reply last_error :
  attempt port reply last_error =
    if accepts reply then ReturnNow (true, None)
    else Next (match recorded port reply with
               | Some text => Some text
               | None => last_error
               end).
Proof.
  unfold accepts, recorded, attempt.
  destruct reply as [response|e]; simpl; [|by destruct e].
  destruct (Z.eqb (status_code response) 200).
  - destruct (response_json response) as [data|e]; simpl; [|by destruct e].
    destruct data; simpl; try done. by destruct (truthy _).
  - destruct (Z.eqb (status_code response) 500); [|done].
    destruct (response_json response) as [data|e]; simpl; [|by destruct e].
    by destruct data.
Qed.

Lemma last_recorded_cons error errors :
  last_recorded (error :: errors) =
    match last_recorded errors with
    | Some text => Some text
    | None => error
    end.
Proof.
  unfold last_recorded. destruct error as [text|]; simpl.
  - rewrite last_cons. by destruct (last _).
  - by destruct (last _).
Qed.

(** The candidates of a round are tried in order up to the first one
    that accepts; a round without acceptance tries them all and returns
    the most recent error text among them. *)
Lemma connect_ports_spec renv payload i ports last_error :
  let reply := fun (j : nat) (p : json) => post renv (i + j) (ask_url p) payload in
  let r := connect_ports renv payload i ports last_error in
  ∃ tried,
    tried `prefix_of` ports
    ∧ r.2 = (fun p => Post (ask_url p) payload) <$> tried
    ∧ if r.1.1
      then ∃ pre p,
             tried = (pre ++ [p])%list
             ∧ accepts (reply (length pre) p) = true
             ∧ (∀ j q, pre !! j = Some q → accepts (reply j q) = false)
             ∧ r.1.2 = None
      else tried = ports
           ∧ (∀ j q, ports !! j = Some q → accepts (reply j q) = false)
           ∧ r.1.2 = match last_recorded (imap (fun j q => recorded q (reply j q)) ports) with
                     | Some text => Some text
                     | None => last_error
                     end.
Proof.
  revert i last_error. induction ports as [|port rest IH]; intros i last_error; simpl.
  { exists []. repeat split; try done. }
  rewrite attempt_accepts.
  destruct (accepts (post renv i (ask_url port) payload)) eqn:Hacc; simpl.
  - exists [port]. split; [by apply prefix_cons, prefix_nil|]. split; [done|].
    exists [], port. simpl. rewrite Nat.add_0_r. repeat split; try done.
  - destruct (IH (S i) (match recorded port (post renv i (ask_url port) payload) with
                        | Some text => Some text
                        | None => last_error
                        end)) as (tried & Hprefix & Htrace & Hcase).
    destruct (connect_ports renv payload (S i) rest _) as [[ok error] trace]. simpl in *.
    exists (port :: tried). split; [by apply prefix_cons|]. split; [by rewrite Htrace|].
    destruct ok.
    + destruct Hcase as (pre & p & -> & Hp & Hpre & ->).
      exists (port :: pre), p. simpl. split; [done|]. split.
      { rewrite <- Hp. do 2 f_equal. lia. }
      split; [|done]. intros [|j] q Hq; simpl in Hq.
      * injection Hq as <-. by rewrite Nat.add_0_r.
      * rewrite <- (Hpre j q Hq). do 2 f_equal. lia.
    + destruct Hcase as (-> & Hall & ->). split; [done|]. split.
      * intros [|j] q Hq; simpl in Hq.
        -- injection Hq as <-. by rewrite Nat.add_0_r.
        -- rewrite <- (Hall j q Hq). do 2 f_equal. lia.
      * rewrite last_recorded_cons, Nat.add_0_r.
        assert (Himap : imap (fun j q => recorded q (post renv (S (i + j)) (ask_url q) payload)) rest
                        = imap ((fun j q => recorded q (post renv (i + j) (ask_url q) payload)) ∘ S) rest).
        { apply imap_ext. intros j q _. simpl. do 3 f_equal. lia. }
        rewrite <- Himap. by destruct (last_recorded _).
Qed.

End Round.

(** ** The retry loop *)

Section Retry.
Context {rt : Runtime}.
Variables (env : Z → RoundEnv) (request_id reason : string) (st : State).

Lemma retry_loop_cons_failed k rest last_error :
  round_ok env request_id reason st k = false →
  retry_loop env request_id reason st (k :: rest) last_error =
    let r := retry_loop env request_id reason st rest
               (round_error env request_id reason st k) in
    (r.1, (round_events env request_id reason st k ++ pause k ++ r.2)%list).
Proof.
  intros Hk. cbn [retry_loop]. unfold round_ok, round_error, round_events in *.
  destruct (try_connect_extension (env k) request_id reason st)
    as [[success error] round].
  simpl in Hk. subst success. simpl.
  by destruct (retry_loop _ _ _ _ _ _) as [r trace].
Qed.

Lemma retry_loop_cons_accepted k rest last_error :
  round_ok env request_id reason st k = true →
  retry_loop env request_id reason st (k :: rest) last_error =
    ((true, last_error), round_events env request_id reason st k).
Proof.
  intros Hk. cbn [retry_loop]. unfold round_ok, round_events in *.
  destruct (try_connect_extension (env k) request_id reason st)
    as [[success error] round].
  simpl in Hk. by subst success.
Qed.

(** When every round fails, the error that remains is the one of the
    last round run. *)
Lemma retry_loop_failed attempts last_error :
  (∀ k, k ∈ attempts → round_ok env request_id reason st k = false) →
  retry_loop env request_id reason st attempts last_error =
    ((false, match last attempts with
             | Some k => round_error env request_id reason st k
             | None => last_error
             end),
     concat ((fun k => round_events env request_id reason st k ++ pause k)%list
               <$> attempts)).
Proof.
  revert last_error.
  induction attempts as [|k rest IH]; intros last_error Hall; [done|].
  rewrite retry_loop_cons_failed by (apply Hall; left).
  rewrite IH by (intros j Hj; apply Hall; by right).
  cbn [fst snd fmap list_fmap concat]. f_equal.
  - f_equal. rewrite (last_cons k rest). by destruct (last rest).
  - apply app_assoc.
Qed.

(** The loop stops at the first accepted round. *)
Lemma retry_loop_accepted before k after last_error :
  (∀ j, j ∈ before → round_ok env request_id reason st j = false) →
  round_ok env request_id reason st k = true →
  retry_loop env request_id reason st (before ++ k :: after) last_error =
    ((true, match last before with
            | Some j => round_error env request_id reason st j
            | None => last_error
            end),
     (concat ((fun j => round_events env request_id reason st j ++ pause j)%list
                <$> before)
      ++ round_events env request_id reason st k)%list).
Proof.
  revert last_error.
  induction before as [|j rest IH]; intros last_error Hall Hk.
  - cbn [app]. by rewrite retry_loop_cons_accepted.
  - cbn [app]. rewrite retry_loop_cons_failed by (apply Hall; left).
    rewrite IH by (try done; intros i Hi; apply Hall; by right).
    cbn [fst snd fmap list_fmap concat]. f_equal.
    + f_equal. rewrite (last_cons j rest). by destruct (last rest).
    + by rewrite <- !app_assoc.
Qed.

End Retry.

(** ** The rounds of a request *)

Section Rounds.
Context {rt : Runtime}.

Lemma try_connect_extension_spec renv request_id reason st :
  in_order_until_accepted renv request_id reason st.
Proof.
  unfold in_order_until_accepted, try_connect_extension.
  set (ports := discover_extension_ports (directory renv)).
  set (payload := ask_payload request_id reason st).
  destruct (connect_ports_spec renv payload 0 ports None) as (tried & Hprefix & Htrace & Hcase).
  destruct (connect_ports renv payload 0 ports None) as [[success error] trace].
  simpl in *. exists tried. split; [done|]. split; [by rewrite Htrace|].
  destruct success; [done|].
  destruct Hcase as (-> & Hall & ->). repeat split; try done.
  by destruct (last_recorded _).
Qed.

Lemma rounds_of_round renv request_id reason st :
  rounds_of (try_connect_extension renv request_id reason st).2 = []
  ∧ sleeps_of (try_connect_extension renv request_id reason st).2 = [].
Proof.
  destruct (try_connect_extension_spec renv request_id reason st)
    as (tried & _ & Htrace & _).
  cbv zeta in Htrace. rewrite Htrace.
  unfold rounds_of, sleeps_of. cbn [omap list_omap]. clear Htrace.
  split; induction tried as [|p tried IH]; try done; rewrite fmap_cons; apply IH.
Qed.

Lemma rounds_of_app t1 t2 : rounds_of (t1 ++ t2) = (rounds_of t1 ++ rounds_of t2)%list.
Proof. apply omap_app. Qed.

Lemma sleeps_of_app t1 t2 : sleeps_of (t1 ++ t2) = (sleeps_of t1 ++ sleeps_of t2)%list.
Proof. apply omap_app. Qed.

Lemma rounds_of_events env request_id reason st k :
  rounds_of (round_events env request_id reason st k) = [k]
  ∧ sleeps_of (round_events env request_id reason st k) = [].
Proof.
  unfold round_events.
  destruct (rounds_of_round (env k) request_id reason st) as [Hr Hs].
  split.
  - change (rounds_of (Attempt k :: ?t)) with (k :: rounds_of t). by rewrite Hr.
  - change (sleeps_of (Attempt k :: ?t)) with (sleeps_of t). by rewrite Hs.
Qed.

Lemma attempts_range : range 1 (MAX_RETRY_COUNT + 1) = [1; 2; 3; 4; 5].
Proof. reflexivity. Qed.

(** The rounds a request runs: 1, 2, ... up to the first accepted one,
    five at most, with a pause after each failed round but the fifth. *)
Lemma request_user_input_rounds env uuid_hex reason st :
  let request_id := new_request_id uuid_hex in
  let st1 := registered uuid_hex st in
  ∃ n : Z,
    1 ≤ n ≤ MAX_RETRY_COUNT
    ∧ (∀ k, 1 ≤ k < n → round_ok env request_id reason st1 k = false)
    ∧ (request_user_input env uuid_hex reason st).2 =
        (rounds_with_pause env request_id reason st1 (seqZ 1 (n - 1))
         ++ round_events env request_id reason st1 n)%list
    ∧ (round_ok env request_id reason st1 n = true
       ∧ (request_user_input env uuid_hex reason st).1 =
           (AwaitFuture (length (futures st)), st1)
       ∨ n = MAX_RETRY_COUNT
         ∧ round_ok env request_id reason st1 n = false
         ∧ (request_user_input env uuid_hex reason st).1 =
             (Return (connect_failed (round_error env request_id reason st1 n)),
              deregister request_id st1)).
Proof.
  intros request_id st1.
  rewrite request_user_input_unfold. cbv zeta. fold request_id. fold st1.
  rewrite attempts_range.
  assert (Hbelow : ∀ n, n ≤ 5 →
            (∀ j, j ∈ seqZ 1 (n - 1) → round_ok env request_id reason st1 j = false) →
            ∀ k, 1 ≤ k < n → round_ok env request_id reason st1 k = false).
  { intros n Hn Hall k Hk. apply Hall. apply elem_of_seqZ. lia. }
  destruct (round_ok env request_id reason st1 1) eqn:H1;
    [|destruct (round_ok env request_id reason st1 2) eqn:H2;
      [|destruct (round_ok env request_id reason st1 3) eqn:H3;
        [|destruct (round_ok env request_id reason st1 4) eqn:H4;
          [|destruct (round_ok env request_id reason st1 5) eqn:H5]]]].
  - exists 1.
    rewrite (retry_loop_accepted env request_id reason st1 [] 1 [2; 3; 4; 5] None)
      by (try done; by intros j Hj%elem_of_nil).
    repeat split; try done. intros k Hk. lia. by left.
  - assert (Hall : ∀ j, j ∈ [1] → round_ok env request_id reason st1 j = false).
    { intros j Hj. repeat (apply elem_of_cons in Hj as [->|Hj]; [done|]).
      by apply elem_of_nil in Hj. }
    exists 2.
    rewrite (retry_loop_accepted env request_id reason st1 [1] 2 [3; 4; 5] None) by done.
    repeat split; try done. by apply Hbelow. by left.
  - assert (Hall : ∀ j, j ∈ [1; 2] → round_ok env request_id reason st1 j = false).
    { intros j Hj. repeat (apply elem_of_cons in Hj as [->|Hj]; [done|]).
      by apply elem_of_nil in Hj. }
    exists 3.
    rewrite (retry_loop_accepted env request_id reason st1 [1; 2] 3 [4; 5] None) by done.
    repeat split; try done. by apply Hbelow. by left.
  - assert (Hall : ∀ j, j ∈ [1; 2; 3] → round_ok env request_id reason st1 j = false).
    { intros j Hj. repeat (apply elem_of_cons in Hj as [->|Hj]; [done|]).
      by apply elem_of_nil in Hj. }
    exists 4.
    rewrite (retry_loop_accepted env request_id reason st1 [1; 2; 3] 4 [5] None) by done.
    repeat split; try done. by apply Hbelow. by left.
  - assert (Hall : ∀ j, j ∈ [1; 2; 3; 4] → round_ok env request_id reason st1 j = false).
    { intros j Hj. repeat (apply elem_of_cons in Hj as [->|Hj]; [done|]).
      by apply elem_of_nil in Hj. }
    exists 5.
    rewrite (retry_loop_accepted env request_id reason st1 [1; 2; 3; 4] 5 [] None) by done.
    repeat split; try done. by apply Hbelow. by left.
  - assert (Hall : ∀ j, j ∈ [1; 2; 3; 4; 5] → round_ok env request_id reason st1 j = false).
    { intros j Hj. repeat (apply elem_of_cons in Hj as [->|Hj]; [done|]).
      by apply elem_of_nil in Hj. }
    exists 5.
    rewrite (retry_loop_failed env request_id reason st1 [1; 2; 3; 4; 5] None) by done.
    repeat split; try done.
    + apply Hbelow; [done|]. intros j Hj. apply Hall.
      apply elem_of_seqZ in Hj. change [1; 2; 3; 4; 5] with (seqZ 1 5).
      apply elem_of_seqZ. lia.
    + cbn [snd]. change (seqZ 1 (5 - 1)) with [1; 2; 3; 4].
      unfold rounds_with_pause, pause. cbn [fmap list_fmap concat].
      change (Z.ltb 5 MAX_RETRY_COUNT) with false.
      change (Z.ltb 1 MAX_RETRY_COUNT) with true.
      change (Z.ltb 2 MAX_RETRY_COUNT) with true.
      change (Z.ltb 3 MAX_RETRY_COUNT) with true.
      change (Z.ltb 4 MAX_RETRY_COUNT) with true.
      cbv iota. by rewrite !app_nil_r, <- !app_assoc.
    + by right.
Qed.

(** C5, as amended.  The retry loop runs rounds numbered 1, 2, ... up to
    the first accepted one and at most [MAX_RETRY_COUNT] = 5; every
    failed round but the fifth is followed by a pause of
    [RETRY_INTERVAL] = 5 seconds and nothing follows the last round run;
    each round reads the marker directory anew and posts to the
    candidates in order, stopping at the first that accepts.  When all
    five rounds fail, the error reported is the one the fifth round
    returned: the most recent error text among the candidates of that
    round, none if that round recorded none. *)
Theorem retry_rounds env uuid_hex reason st :
  let request_id := new_request_id uuid_hex in
  let st1 := registered uuid_hex st in
  (∃ n : Z,
     1 ≤ n ≤ MAX_RETRY_COUNT
     ∧ (∀ k, 1 ≤ k < n → round_ok env request_id reason st1 k = false)
     ∧ (request_user_input env uuid_hex reason st).2 =
         (rounds_with_pause env request_id reason st1 (seqZ 1 (n - 1))
          ++ round_events env request_id reason st1 n)%list
     ∧ (round_ok env request_id reason st1 n = true
        ∧ (request_user_input env uuid_hex reason st).1.1
          = AwaitFuture (length (futures st))
        ∨ n = MAX_RETRY_COUNT
          ∧ round_ok env request_id reason st1 n = false
          ∧ (request_user_input env uuid_hex reason st).1.1
            = Return (connect_failed (round_error env request_id reason st1 n))))
  ∧ ∀ k, in_order_until_accepted (env k) request_id reason st1.
Proof.
  intros request_id st1. split; [|intros k; apply try_connect_extension_spec].
  destruct (request_user_input_rounds env uuid_hex reason st)
    as (n & Hn & Hbefore & Htrace & Hend).
  exists n. repeat split; try done; try apply Hn.
  destruct Hend as [[Hok Heq]|(-> & Hfail & Heq)]; [left|right]; by rewrite Heq.
Qed.

Lemma trace_of_pause k :
  rounds_of (pause k) = []
  ∧ sleeps_of (pause k) = if Z.ltb k MAX_RETRY_COUNT then [RETRY_INTERVAL] else [].
Proof. unfold pause. by destruct (Z.ltb k MAX_RETRY_COUNT). Qed.

(** C4, as amended.  When none of the five rounds is accepted,
    [request_user_input] returns without ever reaching its [await]: it
    has run exactly the rounds 1 to 5 (with the four pauses between
    them), it returns the failure "无法连接到 VS Code 扩展（已重试 5 次）。"
    followed by the error text the fifth round returned (by nothing if
    that round returned none), and the request's id is out of the
    registry in the state it leaves. *)
Theorem connect_exhausted env uuid_hex reason st :
  let request_id := new_request_id uuid_hex in
  let st1 := registered uuid_hex st in
  (∀ k, 1 ≤ k ≤ MAX_RETRY_COUNT → round_ok env request_id reason st1 k = false) →
  ∃ trace,
    request_user_input env uuid_hex reason st =
      (Return (false,
               JStr ("无法连接到 VS Code 扩展（已重试 5 次）。"
                     ++ default "" (round_error env request_id reason st1 5))),
       deregister request_id st1, trace)
    ∧ rounds_of trace = [1; 2; 3; 4; 5]
    ∧ sleeps_of trace = [5; 5; 5; 5]
    ∧ pending_requests (deregister request_id st1) !! request_id = None.
Proof.
  intros request_id st1 Hall.
  rewrite request_user_input_unfold. cbv zeta. fold request_id. fold st1.
  rewrite attempts_range.
  rewrite (retry_loop_failed env request_id reason st1 [1; 2; 3; 4; 5] None).
  2:{ intros k Hk. apply Hall. change [1; 2; 3; 4; 5] with (seqZ 1 5) in Hk.
      apply elem_of_seqZ in Hk. unfold MAX_RETRY_COUNT. lia. }
  cbn [fst snd last fmap list_fmap concat]. eexists. split; [reflexivity|].
  rewrite !rounds_of_app, !sleeps_of_app.
  rewrite !(proj1 (rounds_of_events _ _ _ _ _)), !(proj2 (rounds_of_events _ _ _ _ _)).
  rewrite !(proj1 (trace_of_pause _)), !(proj2 (trace_of_pause _)).
  repeat split; try done. unfold deregister. simpl. apply lookup_delete_eq.
Qed.

End Rounds.

(** ** From the callback to the waiting coroutine *)

Section Delivery.
Context {rt : Runtime}.

Lemma outcome_of_done h : outcome_of h ≠ Pending.
Proof. by destruct h. Qed.

Lemma run_handle_outcome h fs :
  fs !! handle_future h = Some Pending →
  run_handle h fs !! handle_future h = Some (outcome_of h).
Proof. destruct h; simpl; apply lookup_resolve_pending. Qed.

Lemma resolving_run_ready h st :
  resolving h st → futures (run_ready st) !! handle_future h = Some (outcome_of h).
Proof.
  unfold run_ready. simpl. intros [[Hpending (earlier & later & -> & Hearlier)]|Hdone].
  - rewrite foldl_app. simpl.
    apply lookup_run_handles_done; [|apply outcome_of_done].
    apply run_handle_outcome. by rewrite lookup_run_handles_other.
  - apply lookup_run_handles_done; [done|apply outcome_of_done].
Qed.

Lemma resolving_act h a st : resolving h st → resolving h (act a st).
Proof.
  intros Hres. destruct a as [req|uuid_hex|request_id|].
  - simpl. destruct (do_POST_inv req st)
      as [[-> _]|(? & ? & rid & f & h' & _ & _ & _ & _ & _ & _ & _ & ->)]; [done|].
    destruct Hres as [[Hpending (earlier & later & Hready & Hearlier)]|Hdone];
      [left|by right].
    split; [done|]. exists earlier, (later ++ [h'])%list. split; [|done].
    simpl. by rewrite Hready, <- app_assoc.
  - assert (Hfutures : ∀ f s, futures st !! f = Some s →
              futures (registered uuid_hex st) !! f = Some s).
    { intros f s Hf. unfold registered, register, create_future. simpl.
      rewrite lookup_app_l; [done|by eapply lookup_lt_Some]. }
    destruct Hres as [[Hpending Hqueue]|Hdone]; [left|right; by apply Hfutures].
    split; [by apply Hfutures|done].
  - done.
  - right. by apply resolving_run_ready.
Qed.

Lemma resolving_run h actions st : resolving h st → resolving h (run actions st).
Proof.
  revert st. induction actions as [|a actions IH]; intros st Hres; [done|].
  simpl. by apply IH, resolving_act.
Qed.

Lemma main_loop_act a st : main_loop (act a st) = main_loop st.
Proof.
  destruct a as [req|uuid_hex|request_id|]; simpl; try done.
  by destruct (do_POST_inv req st)
    as [[-> _]|(? & ? & ? & ? & ? & _ & _ & _ & _ & _ & _ & _ & ->)].
Qed.

Lemma main_loop_run actions st : main_loop (run actions st) = main_loop st.
Proof.
  revert st. induction actions as [|a actions IH]; intros st; [done|].
  simpl. by rewrite IH, main_loop_act.
Qed.

(** A well-formed callback for a registered request, in a consistent
    state with the loop recorded: it is answered with success, the id
    leaves the registry, and whatever the process does next, once the
    loop has run, the future holds the outcome the callback carried. *)
Lemma callback_delivers req text data rid f st after :
  wf st → main_loop st ≠ None → pending_requests st !! rid = Some f →
  path req = "/response" → read_body req = Ok text →
  json_loads text = Ok (JDict data) →
  assoc "requestId" data = Some (JStr rid) →
  let h := resolution f (default (JStr "") (assoc "userInput" data))
                        (default (JBool false) (assoc "cancelled" data)) in
  ∃ st2,
    do_POST req st = (Ok success_response, st2)
    ∧ pending_requests st2 !! rid = None
    ∧ futures (run_ready (run after st2)) !! f = Some (outcome_of h).
Proof.
  intros Hwf Hloop Hf Hpath Hbody Hload Hid h.
  rewrite (do_POST_well_formed _ _ _ _ Hpath Hbody Hload) by by rewrite Hid.
  rewrite Hid. simpl. rewrite Hf. destruct (main_loop st) as [loop|]; [|done].
  eexists. split; [done|]. split; [simpl; apply lookup_delete_eq|].
  assert (Hh : handle_future h = f).
  { unfold h, resolution. by destruct (truthy _). }
  destruct (registered_pending _ _ Hwf _ _ Hf) as [Hpending Hfresh].
  assert (Hres : resolving h
            (call_soon_threadsafe h
               (set_pending_requests (delete rid (pending_requests st)) st))).
  { left. rewrite Hh. split; [done|]. by exists (ready st), []. }
  pose proof (resolving_run_ready _ _ (resolving_run _ after _ Hres)) as Hdone.
  by rewrite Hh in Hdone.
Qed.

End Delivery.

(** ** Asking and waiting *)

Section Ask.
Context {rt : Runtime}.

(** An accepted round sends the coroutine to its wait, with the request
    registered on a fresh pending future. *)
Lemma accepted_awaits env uuid_hex reason st n :
  1 ≤ n ≤ MAX_RETRY_COUNT →
  round_ok env (new_request_id uuid_hex) reason (registered uuid_hex st) n = true →
  ∃ trace,
    request_user_input env uuid_hex reason st =
      (AwaitFuture (length (futures st)), registered uuid_hex st, trace)
    ∧ await_future (length (futures st)) (registered uuid_hex st) = None.
Proof.
  intros Hn Hok.
  destruct (request_user_input_rounds env uuid_hex reason st)
    as (m & Hm & Hbefore & _ & Hend).
  destruct (request_user_input env uuid_hex reason st) as [[c st'] trace].
  exists trace. split.
  - destruct Hend as [[_ Heq]|(-> & Hfail & _)]; [simpl in Heq; by rewrite Heq|].
    destruct (decide (n = MAX_RETRY_COUNT)) as [->|Hne]; [congruence|].
    rewrite Hbefore in Hok; [done|lia].
  - unfold await_future, registered, register, create_future. simpl.
    rewrite lookup_app_r by done. by rewrite Nat.sub_diag.
Qed.

Lemma registered_wf uuid_hex st : wf st → wf (registered uuid_hex st).
Proof.
  intros Hwf. eapply consistent_wf, consistent_registered.
  unfold registered, register, create_future. simpl. exact Hwf.
Qed.

(** C2. An ask made in a consistent state with the loop recorded, of
    which some round [n] of the five is accepted, goes to its wait; when
    the companion then posts the callback with the request's id, a text
    [user_input] (empty or not) and [cancelled = false], while the
    request is still registered, the callback is answered with success,
    the id leaves the registry, and once the loop has run the coroutine
    returns [(True, user_input)], whatever else the process did before
    and after the callback. *)
Theorem accepted_then_answered env uuid_hex reason st n between req text data
    user_input after :
  let request_id := new_request_id uuid_hex in
  let st1 := registered uuid_hex st in
  let future := length (futures st) in
  wf st → main_loop st ≠ None →
  1 ≤ n ≤ MAX_RETRY_COUNT → round_ok env request_id reason st1 n = true →
  pending_requests (run between st1) !! request_id = Some future →
  path req = "/response" → read_body req = Ok text →
  json_loads text = Ok (JDict data) →
  assoc "requestId" data = Some (JStr request_id) →
  assoc "userInput" data = Some (JStr user_input) →
  assoc "cancelled" data = Some (JBool false) →
  ∃ trace st2,
    request_user_input env uuid_hex reason st = (AwaitFuture future, st1, trace)
    ∧ await_future future st1 = None
    ∧ do_POST req (run between st1) = (Ok success_response, st2)
    ∧ pending_requests st2 !! request_id = None
    ∧ await_future future (run_ready (run after st2)) = Some (true, JStr user_input).
Proof.
  intros request_id st1 future Hwf Hloop Hn Hok Hreg Hpath Hbody Hload Hid Hinput Hcancelled.
  destruct (accepted_awaits env uuid_hex reason st n Hn Hok) as (trace & Hawait & Hsuspended).
  assert (Hwf1 : wf (run between st1)) by by apply wf_run, registered_wf.
  assert (Hloop1 : main_loop (run between st1) ≠ None).
  { rewrite main_loop_run. by unfold st1, registered, register, create_future. }
  destruct (callback_delivers req text data request_id future _ after
              Hwf1 Hloop1 Hreg Hpath Hbody Hload Hid) as (st2 & Hpost & Hgone & Hdone).
  exists trace, st2. repeat (split; [done|]).
  unfold await_future. rewrite Hdone, Hinput, Hcancelled. done.
Qed.

(** C3. The same ask, when the callback carries [cancelled = true]:
    the callback is answered with success, the id leaves the registry,
    and once the loop has run the coroutine returns
    [(False, "用户取消了对话")], the cancellation outcome, which differs
    from every value the connect failure returns. *)
Theorem accepted_then_cancelled env uuid_hex reason st n between req text data after :
  let request_id := new_request_id uuid_hex in
  let st1 := registered uuid_hex st in
  let future := length (futures st) in
  wf st → main_loop st ≠ None →
  1 ≤ n ≤ MAX_RETRY_COUNT → round_ok env request_id reason st1 n = true →
  pending_requests (run between st1) !! request_id = Some future →
  path req = "/response" → read_body req = Ok text →
  json_loads text = Ok (JDict data) →
  assoc "requestId" data = Some (JStr request_id) →
  assoc "cancelled" data = Some (JBool true) →
  ∃ trace st2,
    request_user_input env uuid_hex reason st = (AwaitFuture future, st1, trace)
    ∧ do_POST req (run between st1) = (Ok success_response, st2)
    ∧ pending_requests st2 !! request_id = None
    ∧ await_future future (run_ready (run after st2)) = Some (false, JStr "用户取消了对话")
    ∧ ∀ last_error, (false, JStr "用户取消了对话") ≠ connect_failed last_error.
Proof.
  intros request_id st1 future Hwf Hloop Hn Hok Hreg Hpath Hbody Hload Hid Hcancelled.
  destruct (accepted_awaits env uuid_hex reason st n Hn Hok) as (trace & Hawait & _).
  assert (Hwf1 : wf (run between st1)) by by apply wf_run, registered_wf.
  assert (Hloop1 : main_loop (run between st1) ≠ None).
  { rewrite main_loop_run. by unfold st1, registered, register, create_future. }
  destruct (callback_delivers req text data request_id future _ after
              Hwf1 Hloop1 Hreg Hpath Hbody Hload Hid) as (st2 & Hpost & Hgone & Hdone).
  exists trace, st2. split; [done|]. split; [done|]. split; [done|]. split.
  - unfold await_future. rewrite Hdone, Hcancelled. done.
  - intros last_error. unfold connect_failed. simpl. discriminate.
Qed.

End Ask.

(** ** The claims at concrete asks *)

Lemma wf_started : wf Sample.started.
Proof.
  split; simpl; try done.
  - intros f Hin. by apply elem_of_nil in Hin.
  - constructor.
Qed.

Lemma accepted_then_answered_witness :
  ∃ trace st2,
    request_user_input (rt := Sample.runtime) (Sample.accepts_in_round 3)
      Sample.uuid_hex "done" Sample.started
    = (AwaitFuture 0%nat, registered Sample.uuid_hex Sample.started, trace)
    ∧ await_future (rt := Sample.runtime) 0%nat (registered Sample.uuid_hex Sample.started)
      = None
    ∧ do_POST (rt := Sample.runtime) (Sample.callback Sample.answer_text)
        (registered Sample.uuid_hex Sample.started)
      = (Ok success_response, st2)
    ∧ pending_requests st2 !! Sample.rid = None
    ∧ await_future (rt := Sample.runtime) 0%nat (run_ready st2)
      = Some (true, JStr "go on").
Proof.
  apply (accepted_then_answered (rt := Sample.runtime) (Sample.accepts_in_round 3)
           Sample.uuid_hex "done" Sample.started 3 []
           (Sample.callback Sample.answer_text) Sample.answer_text
           [("requestId", JStr Sample.rid); ("userInput", JStr "go on");
            ("cancelled", JBool false)]
           "go on" []).
  - exact wf_started.
  - discriminate.
  - vm_compute. split; discriminate.
  - vm_compute. reflexivity.
  - vm_compute. reflexivity.
  - reflexivity.
  - vm_compute. reflexivity.
  - vm_compute. reflexivity.
  - reflexivity.
  - reflexivity.
  - reflexivity.
Defined.

Lemma accepted_then_cancelled_witness :
  ∃ trace st2,
    request_user_input (rt := Sample.runtime) (Sample.accepts_in_round 1)
      Sample.uuid_hex "done" Sample.started
    = (AwaitFuture 0%nat, registered Sample.uuid_hex Sample.started, trace)
    ∧ do_POST (rt := Sample.runtime) (Sample.callback Sample.cancel_text)
        (registered Sample.uuid_hex Sample.started)
      = (Ok success_response, st2)
    ∧ pending_requests st2 !! Sample.rid = None
    ∧ await_future (rt := Sample.runtime) 0%nat (run_ready st2)
      = Some (false, JStr "用户取消了对话")
    ∧ ∀ last_error, (false, JStr "用户取消了对话") ≠ connect_failed last_error.
Proof.
  apply (accepted_then_cancelled (rt := Sample.runtime) (Sample.accepts_in_round 1)
           Sample.uuid_hex "done" Sample.started 1 []
           (Sample.callback Sample.cancel_text) Sample.cancel_text
           [("requestId", JStr Sample.rid); ("cancelled", JBool true)] []).
  - exact wf_started.
  - discriminate.
  - vm_compute. split; discriminate.
  - vm_compute. reflexivity.
  - vm_compute. reflexivity.
  - reflexivity.
  - vm_compute. reflexivity.
  - vm_compute. reflexivity.
  - reflexivity.
  - reflexivity.
Defined.

Lemma connect_exhausted_witness :
  ∃ trace,
    request_user_input (rt := Sample.runtime) Sample.nobody_listens
      Sample.uuid_hex "done" Sample.started
    = (Return (false, JStr "无法连接到 VS Code 扩展（已重试 5 次）。无法连接到端口 23983"),
       deregister Sample.rid (registered Sample.uuid_hex Sample.started), trace)
    ∧ rounds_of trace = [1; 2; 3; 4; 5]
    ∧ sleeps_of trace = [5; 5; 5; 5]
    ∧ pending_requests (deregister Sample.rid (registered Sample.uuid_hex Sample.started))
        !! Sample.rid = None.
Proof.
  apply (connect_exhausted (rt := Sample.runtime) Sample.nobody_listens
           Sample.uuid_hex "done" Sample.started).
  intros k _. reflexivity.
Defined.

(** C4 fails as stated: the connection is refused in rounds 1 to 4, and in
    round 5 the port answers 404, for which the round records nothing.
    No round is accepted; the last error text recorded is the refusal of
    round 4, and the failure returned does not carry it: it carries no
    error text at all. *)
Lemma last_error_lost_in_quiet_final_round :
  round_ok (rt := Sample.runtime) Sample.refused_then_404 Sample.rid "done"
      (registered Sample.uuid_hex Sample.started) <$> [1; 2; 3; 4; 5]
    = [false; false; false; false; false]
  ∧ last_recorded
      (round_error (rt := Sample.runtime) Sample.refused_then_404 Sample.rid "done"
         (registered Sample.uuid_hex Sample.started) <$> [1; 2; 3; 4; 5])
    = Some "无法连接到端口 23983"
  ∧ (request_user_input (rt := Sample.runtime) Sample.refused_then_404
       Sample.uuid_hex "done" Sample.started).1.1
    = Return (false, JStr "无法连接到 VS Code 扩展（已重试 5 次）。")
  ∧ (request_user_input (rt := Sample.runtime) Sample.refused_then_404
       Sample.uuid_hex "done" Sample.started).1.1
    ≠ Return (connect_failed (Some "无法连接到端口 23983")).
Proof.
  split; [vm_compute; reflexivity|]. split; [vm_compute; reflexivity|].
  split; [vm_compute; reflexivity|]. vm_compute. discriminate.
Qed.

(** C5 fails as stated: the default port times out in rounds 1 to 4 and
    in round 5 answers 200 with a body that has no success flag.  The
    most recent error recorded across the rounds is the timeout of round
    4; the failure reported carries no error text. *)
Lemma reported_error_is_final_round_only :
  last_recorded
      (round_error (rt := Sample.runtime) Sample.timeout_then_plain_200 Sample.rid "done"
         (registered Sample.uuid_hex Sample.started) <$> [1; 2; 3; 4; 5])
    = Some "连接端口 23983 超时"
  ∧ round_error (rt := Sample.runtime) Sample.timeout_then_plain_200 Sample.rid "done"
      (registered Sample.uuid_hex Sample.started) 5 = None
  ∧ (request_user_input (rt := Sample.runtime) Sample.timeout_then_plain_200
       Sample.uuid_hex "done" Sample.started).1.1
    = Return (connect_failed None)
  ∧ connect_failed None ≠ connect_failed (Some "连接端口 23983 超时").
Proof.
  split; [vm_compute; reflexivity|]. split; [vm_compute; reflexivity|].
  split; [vm_compute; reflexivity|]. vm_compute. discriminate.
Qed.

Example bind_third_port :
  start_callback_server Sample.two_ports_taken initial_state
  = (Serving 23986,
     {| pending_requests := ∅; main_loop := None;
        current_callback_port := 23986; callback_server_ready := true;
        futures := []; ready := [] |}).
Proof. reflexivity. Qed.

Example bind_other_error_signals :
  start_callback_server Sample.permission_denied initial_state
  = (Returned, set_callback_server_ready initial_state).
Proof. reflexivity. Qed.

Example do_POST_cancel :
  do_POST (rt := Sample.runtime) (Sample.callback Sample.cancel_text) Sample.one_pending
  = (Ok success_response,
     {| pending_requests := ∅; main_loop := Some RunningLoop;
        current_callback_port := 23984; callback_server_ready := true;
        futures := [Pending];
        ready := [SetException 0%nat (Exception "用户取消了对话")] |}).
Proof. vm_compute. reflexivity. Qed.

Example do_POST_unhashable_id :
  do_POST (rt := Sample.runtime) (Sample.callback Sample.list_id_text) Sample.one_pending
  = (Ok (bad_request_response (rt := Sample.runtime) (TypeError (JList [JInt 1]))),
     Sample.one_pending).
Proof. vm_compute. reflexivity. Qed.

Example discover_skips_bad_files :
  discover_extension_ports
    (Some [ {| filename := "a.port"; load := Ok (JDict [("port", JInt 40001)]) |};
            {| filename := "notes.txt"; load := Ok (JDict [("port", JInt 40002)]) |};
            {| filename := "b.port"; load := Raise (LibraryError "Expecting value") |};
            {| filename := "c.port"; load := Ok (JDict [("port", JInt 0)]) |};
            {| filename := "d.port"; load := Ok (JList [JInt 40003]) |};
            {| filename := "e.port"; load := Ok (JDict [("port", JInt 40004)]) |} ])
  = [JInt 40001; JInt 40004].
Proof. reflexivity. Qed.

Example first_marker_accepts :
  (request_user_input (rt := Sample.runtime) (Sample.accepts_in_round 2)
     Sample.uuid_hex "done" Sample.started).2
  = [ Attempt 1; Discover [JInt 40123];
      Post "http://127.0.0.1:40123/ask"
        (ask_payload Sample.rid "done" Sample.started);
      Sleep 5;
      Attempt 2; Discover [JInt 40123];
      Post "http://127.0.0.1:40123/ask"
        (ask_payload Sample.rid "done" Sample.started) ].
Proof. vm_compute. reflexivity. Qed.

(** * Further properties of the code *)

(** ** The callback handler *)

Section CallbackFrame.
Context {rt : Runtime}.

(** On an open loop the handler is [do_POST]. *)
Lemma do_POST_on_open req st : do_POST_on LoopOpen req st = do_POST req st.
Proof.
  unfold do_POST_on, do_POST. destruct (String.eqb _ _); [|done].
  destruct (read_body req) as [text|e]; [|done].
  unfold handle_response_on, handle_response.
  destruct (json_loads text) as [data|e]; simpl; [|done].
  destruct (get data "requestId" JNull) as [request_id|e]; simpl; [|done].
  destruct (get data "userInput" _) as [user_input|e]; simpl; [|done].
  destruct (get data "cancelled" _) as [cancelled|e]; simpl; [|done].
  destruct (contains _ _) as [found|e]; simpl; [|done].
  destruct (found && _); [|done].
  destruct (pop _ _) as [[future st']|e]; simpl; [|done].
  by destruct (truthy cancelled).
Qed.

(** The handler either answers 400 or 404 and leaves the state alone, or
    it carries the id of a registered request and takes it out of the
    registry; the future is queued only when the loop is open. *)
Lemma do_POST_on_inv loop req st :
  ((do_POST_on loop req st).2 = st
   ∧ ∀ resp, (do_POST_on loop req st).1 = Ok resp →
       status resp = 400 ∨ status resp = 404)
  ∨ ∃ rid f h,
      pending_requests st !! rid = Some f ∧ main_loop st ≠ None ∧ handle_future h = f
      ∧ do_POST_on loop req st =
          match loop with
          | LoopOpen => (Ok success_response, call_soon_threadsafe h (deregister rid st))
          | LoopClosed => (Ok loop_closed_response, deregister rid st)
          end.
Proof.
  unfold do_POST_on.
  destruct (String.eqb _ _); [|left; split; [done|intros resp [= <-]; by right]].
  destruct (read_body req) as [text|e]; [|by left].
  unfold handle_response_on.
  destruct (json_loads text) as [data|e]; simpl;
    [|left; split; [done|intros resp [= <-]; by left]].
  destruct (get data "requestId" JNull) as [request_id|e]; simpl;
    [|left; split; [done|intros resp [= <-]; by left]].
  destruct (get data "userInput" _) as [user_input|e]; simpl;
    [|left; split; [done|intros resp [= <-]; by left]].
  destruct (get data "cancelled" _) as [cancelled|e]; simpl;
    [|left; split; [done|intros resp [= <-]; by left]].
  destruct (contains _ _) as [found|e] eqn:Hc; simpl;
    [|left; split; [done|intros resp [= <-]; by left]].
  destruct found; simpl; [|left; split; [done|intros resp [= <-]; by right]].
  destruct (main_loop st) as [l|] eqn:Hloop; simpl;
    [|left; split; [done|intros resp [= <-]; by right]].
  apply contains_true in Hc as (rid & f & -> & Hf).
  right. exists rid, f. simpl. rewrite Hf. simpl.
  destruct (truthy cancelled);
    [exists (SetException f (Exception "用户取消了对话"))|exists (SetResult f user_input)];
    (split; [done|]); (split; [done|]); (split; [done|]);
    by destruct loop.
Qed.

(** A callback never touches a future, the loop reference, the recorded
    port or the readiness event.  Either it changes nothing at all, or it
    takes exactly one registered id out of the registry.  On an open loop
    it then queues exactly one handle, for the future that id was
    registered with, and answers 200.  On a closed loop
    [call_soon_threadsafe] raises after the [pop]: nothing is queued, the
    answer is 400 "Event loop is closed" and the request is lost. *)
Theorem callback_frame loop req st :
  futures (do_POST_on loop req st).2 = futures st
  ∧ main_loop (do_POST_on loop req st).2 = main_loop st
  ∧ current_callback_port (do_POST_on loop req st).2 = current_callback_port st
  ∧ callback_server_ready (do_POST_on loop req st).2 = callback_server_ready st
  ∧ ((do_POST_on loop req st).2 = st
     ∨ ∃ rid f,
         pending_requests st !! rid = Some f
         ∧ pending_requests (do_POST_on loop req st).2 = delete rid (pending_requests st)
         ∧ match loop with
           | LoopOpen =>
               (do_POST_on loop req st).1 = Ok success_response
               ∧ ∃ h, handle_future h = f
                      ∧ ready (do_POST_on loop req st).2 = (ready st ++ [h])%list
           | LoopClosed =>
               (do_POST_on loop req st).1 = Ok loop_closed_response
               ∧ ready (do_POST_on loop req st).2 = ready st
           end).
Proof.
  destruct (do_POST_on_inv loop req st) as [[Heq _]|(rid & f & h & Hf & _ & Hh & Heq)].
  - rewrite Heq. repeat split; try done. by left.
  - rewrite Heq. destruct loop; cbn [fst snd]; repeat split; try done;
      right; exists rid, f; repeat split; try done. by exists h.
Qed.

(** The handler answers 200, 400 or 404 and nothing else, and 200 only
    when the loop took the callback.  With any other answer the state is
    as before, except on a closed loop: there the 400 "Event loop is
    closed" comes with one registered id removed.  An exception escapes
    the handler, no response written, only when the body of a
    POST /response cannot be read; any other path is answered 404 without
    a look at the body. *)
Theorem callback_answers loop req st :
  (∀ resp, (do_POST_on loop req st).1 = Ok resp →
     (status resp = 200 ∨ status resp = 400 ∨ status resp = 404)
     ∧ (status resp = 200 → loop = LoopOpen)
     ∧ (status resp ≠ 200 →
        (do_POST_on loop req st).2 = st
        ∨ loop = LoopClosed ∧ resp = loop_closed_response
          ∧ ∃ rid, is_Some (pending_requests st !! rid)
                   ∧ (do_POST_on loop req st).2 = deregister rid st))
  ∧ (∀ e, (do_POST_on loop req st).1 = Raise e →
       path req = "/response" ∧ read_body req = Raise e
       ∧ (do_POST_on loop req st).2 = st)
  ∧ (path req ≠ "/response" →
     do_POST_on loop req st = (Ok {| status := 404; headers := []; body := None |}, st)).
Proof.
  split; [|split].
  - intros resp Hresp.
    destruct (do_POST_on_inv loop req st)
      as [[Heq Hstatus]|(rid & f & h & Hf & _ & _ & Heq)].
    + destruct (Hstatus resp Hresp) as [Hs|Hs]; rewrite Hs.
      * split; [by right; left|]. split; [done|]. by left.
      * split; [by right; right|]. split; [done|]. by left.
    + rewrite Heq in Hresp |- *. destruct loop; cbn [fst snd] in *.
      * injection Hresp as <-. split; [by left|]. split; done.
      * injection Hresp as <-. split; [by right; left|]. split; [done|].
        intros _. right. repeat split; try done. exists rid. by rewrite Hf.
  - intros e. unfold do_POST_on. destruct (String.eqb _ _) eqn:Hpath; [|done].
    apply String.eqb_eq in Hpath.
    destruct (read_body req) as [text|e']; simpl.
    + by destruct (handle_response_on loop text st) as [[resp|e''] st'].
    + by intros [= <-].
  - intros Hpath. unfold do_POST_on.
    destruct (String.eqb_spec (path req) "/response"); done.
Qed.

End CallbackFrame.

(** ** Concurrent requests *)

Section Concurrent.
Context {rt : Runtime}.

Lemma resolve_commute f g o1 o2 fs :
  f ≠ g → resolve f o1 (resolve g o2 fs) = resolve g o2 (resolve f o1 fs).
Proof.
  intros Hne. unfold resolve at 1 3.
  rewrite (lookup_resolve_ne g f) by done. rewrite (lookup_resolve_ne f g) by done.
  destruct (fs !! f) as [[]|] eqn:Hf; destruct (fs !! g) as [[]|] eqn:Hg;
    unfold resolve; rewrite ?Hf, ?Hg; try done.
  by apply list_insert_insert_ne.
Qed.

Lemma run_handle_commute h1 h2 fs :
  handle_future h1 ≠ handle_future h2 →
  run_handle h1 (run_handle h2 fs) = run_handle h2 (run_handle h1 fs).
Proof.
  intros Hne. destruct (run_handle_resolve h1 fs) as [o1 H1].
  destruct h1, h2; simpl in *; by apply resolve_commute.
Qed.

(** The state a well-formed callback for a registered request leaves. *)
Lemma do_POST_registered req text data rid f st :
  main_loop st ≠ None → pending_requests st !! rid = Some f →
  path req = "/response" → read_body req = Ok text →
  json_loads text = Ok (JDict data) →
  assoc "requestId" data = Some (JStr rid) →
  do_POST req st =
    (Ok success_response,
     call_soon_threadsafe
       (resolution f (default (JStr "") (assoc "userInput" data))
                     (default (JBool false) (assoc "cancelled" data)))
       (deregister rid st)).
Proof.
  intros Hloop Hf Hpath Hbody Hload Hid.
  rewrite (do_POST_well_formed _ _ _ _ Hpath Hbody Hload) by by rewrite Hid.
  rewrite Hid. simpl. rewrite Hf. by destruct (main_loop st).
Qed.

Lemma handle_future_resolution f user_input cancelled :
  handle_future (resolution f user_input cancelled) = f.
Proof. unfold resolution. by destruct (truthy cancelled). Qed.

(** Requests are not cross-wired: the callback for one request, and the
    loop iteration that delivers it, leave every other registered request
    registered, on its own future, and still waiting. *)
Theorem callback_leaves_other_requests req text data rid f rid' f' st :
  wf st → main_loop st ≠ None →
  pending_requests st !! rid = Some f → pending_requests st !! rid' = Some f' →
  rid ≠ rid' →
  path req = "/response" → read_body req = Ok text →
  json_loads text = Ok (JDict data) →
  assoc "requestId" data = Some (JStr rid) →
  pending_requests (run_ready (do_POST req st).2) !! rid' = Some f'
  ∧ await_future f' (run_ready (do_POST req st).2) = None
  ∧ wf (run_ready (do_POST req st).2).
Proof.
  intros Hwf Hloop Hf Hf' Hne Hpath Hbody Hload Hid.
  assert (Hwf' : wf (run [Callback req; RunLoop] st)) by by apply wf_run.
  simpl in Hwf'.
  assert (Hreg : pending_requests (run_ready (do_POST req st).2) !! rid' = Some f').
  { rewrite (do_POST_registered _ _ _ _ _ _ Hloop Hf Hpath Hbody Hload Hid).
    simpl. by rewrite lookup_delete_ne. }
  split; [done|]. split; [|done].
  destruct (registered_pending _ _ Hwf' _ _ Hreg) as [Hpending _].
  unfold await_future. by rewrite Hpending.
Qed.

(** The order in which the callbacks of two different requests arrive
    does not matter: once the loop has run, the state is the same. *)
Theorem callbacks_commute req1 text1 data1 rid1 f1 req2 text2 data2 rid2 f2 st :
  wf st → main_loop st ≠ None →
  pending_requests st !! rid1 = Some f1 → pending_requests st !! rid2 = Some f2 →
  rid1 ≠ rid2 →
  path req1 = "/response" → read_body req1 = Ok text1 →
  json_loads text1 = Ok (JDict data1) →
  assoc "requestId" data1 = Some (JStr rid1) →
  path req2 = "/response" → read_body req2 = Ok text2 →
  json_loads text2 = Ok (JDict data2) →
  assoc "requestId" data2 = Some (JStr rid2) →
  run_ready (do_POST req2 (do_POST req1 st).2).2
  = run_ready (do_POST req1 (do_POST req2 st).2).2.
Proof.
  intros Hwf Hloop Hf1 Hf2 Hne Hpath1 Hbody1 Hload1 Hid1 Hpath2 Hbody2 Hload2 Hid2.
  rewrite (do_POST_registered req1 text1 data1 rid1 f1 st Hloop Hf1 Hpath1 Hbody1 Hload1 Hid1).
  rewrite (do_POST_registered req2 text2 data2 rid2 f2 st Hloop Hf2 Hpath2 Hbody2 Hload2 Hid2).
  cbn [snd].
  rewrite (do_POST_registered req2 text2 data2 rid2 f2);
    [|done|by simpl; rewrite lookup_delete_ne|done..].
  rewrite (do_POST_registered req1 text1 data1 rid1 f1);
    [|done|by simpl; rewrite lookup_delete_ne|done..].
  cbn [snd].
  unfold run_ready, call_soon_threadsafe, deregister, set_ready, set_futures,
    set_pending_requests. simpl. f_equal.
  - apply delete_delete.
  - rewrite !foldl_app. simpl.
    apply run_handle_commute. rewrite !handle_future_resolution.
    intros <-. by specialize (registered_once _ _ Hwf _ _ _ Hf1 Hf2).
Qed.

(** The callback's fields are read without a type check: the request
    is cancelled exactly when [cancelled] counts as true in Python (so
    the string "false" cancels), and otherwise the coroutine returns the
    [userInput] value as it came, string or not; a missing field counts
    as the empty string, respectively as false. *)
Theorem callback_outcome_by_truthiness req text data rid f st after :
  wf st → main_loop st ≠ None → pending_requests st !! rid = Some f →
  path req = "/response" → read_body req = Ok text →
  json_loads text = Ok (JDict data) →
  assoc "requestId" data = Some (JStr rid) →
  await_future f (run_ready (run after (do_POST req st).2))
  = if truthy (default (JBool false) (assoc "cancelled" data))
    then Some (false, JStr "用户取消了对话")
    else Some (true, default (JStr "") (assoc "userInput" data)).
Proof.
  intros Hwf Hloop Hf Hpath Hbody Hload Hid.
  destruct (callback_delivers req text data rid f st after
              Hwf Hloop Hf Hpath Hbody Hload Hid) as (st2 & Hpost & _ & Hdone).
  rewrite Hpost. cbn [snd]. unfold await_future. rewrite Hdone.
  unfold resolution. by destruct (truthy _).
Qed.

(** Resumed means removed: in every state the process reaches, a request
    that is still in the registry has not been answered, its coroutine is
    still waiting. *)
Theorem registered_request_still_waits actions st rid f :
  wf st → pending_requests (run actions st) !! rid = Some f →
  await_future f (run actions st) = None.
Proof.
  intros Hwf Hf. pose proof (wf_run actions st Hwf) as Hwf'.
  destruct (registered_pending _ _ Hwf' _ _ Hf) as [Hpending _].
  unfold await_future. by rewrite Hpending.
Qed.

End Concurrent.

(** ** Futures nobody can reach *)

Section Abandoned.
Context {rt : Runtime}.

Lemma abandoned_act f a st : abandoned f st → abandoned f (act a st).
Proof.
  intros (Hpending & Hunreg & Hunsched). destruct a as [req|uuid_hex|request_id|]; simpl.
  - destruct (do_POST_inv req st)
      as [[-> _]|(? & ? & rid & g & h & _ & _ & _ & _ & Hg & _ & Hh & ->)]; [done|].
    split; [done|]. split; simpl.
    + intros rid'. destruct (decide (rid' = rid)) as [->|Hne].
      * by rewrite lookup_delete_eq.
      * rewrite lookup_delete_ne by done. apply Hunreg.
    + unfold targets. rewrite fmap_app, elem_of_app. intros [Hin|Hin]; [done|].
      simpl in Hin. apply list_elem_of_singleton in Hin. subst f.
      rewrite Hh in Hunreg. by destruct (Hunreg rid).
  - assert (Hlt : (f < length (futures st))%nat) by by eapply lookup_lt_Some.
    unfold registered, register, create_future. split; simpl.
    + by rewrite lookup_app_l.
    + split; [|done]. intros rid.
      destruct (decide (new_request_id uuid_hex = rid)) as [->|Hne].
      * rewrite lookup_insert_eq. intros [= Heq]. lia.
      * rewrite lookup_insert_ne by done. apply Hunreg.
  - split; [done|]. split; [|done]. simpl. intros rid.
    destruct (decide (rid = request_id)) as [->|Hne].
    + by rewrite lookup_delete_eq.
    + rewrite lookup_delete_ne by done. apply Hunreg.
  - split; simpl.
    + by rewrite lookup_run_handles_other.
    + split; [done|]. apply not_elem_of_nil.
Qed.

Lemma abandoned_run f actions st :
  abandoned f st → await_future f (run actions st) = None.
Proof.
  intros Hab.
  assert (Hrun : abandoned f (run actions st)).
  { revert st Hab. induction actions as [|a actions IH]; intros st Hab; [done|].
    simpl. by apply IH, abandoned_act. }
  destruct Hrun as (Hpending & _). unfold await_future. by rewrite Hpending.
Qed.

(** The registry is the only way to a future: one that is pending,
    registered under no id and not in the loop's queue is never
    resolved, whatever callbacks arrive afterwards; a coroutine waiting
    for it waits for ever. *)
Theorem abandoned_future_never_resolves f st actions :
  abandoned f st → await_future f (run actions st) = None.
Proof. apply abandoned_run. Qed.

(** Two asks whose UUID draws agree on the first twelve hex digits get
    the same request id.  If the second registers while the first is
    still pending, it takes over the registry entry: the future of the
    first is abandoned and its coroutine never resumes. *)
Theorem colliding_id_strands_first_request uuid1 uuid2 st actions :
  wf st →
  String.substring 0 12 uuid1 = String.substring 0 12 uuid2 →
  pending_requests (registered uuid2 (registered uuid1 st)) !! new_request_id uuid1
    = Some (S (length (futures st)))
  ∧ await_future (length (futures st))
      (run actions (registered uuid2 (registered uuid1 st))) = None.
Proof.
  intros Hwf Hsame.
  assert (Hid : new_request_id uuid2 = new_request_id uuid1).
  { unfold new_request_id. by rewrite Hsame. }
  split.
  - unfold registered, register, create_future. simpl. rewrite Hid, lookup_insert_eq.
    rewrite length_app. simpl. f_equal. lia.
  - apply abandoned_run.
    unfold abandoned, registered, register, create_future. simpl.
    rewrite Hid. split; [|split].
    + rewrite lookup_app_l by (rewrite length_app; simpl; lia).
      rewrite lookup_app_r by done. by rewrite Nat.sub_diag.
    + intros rid. destruct (decide (new_request_id uuid1 = rid)) as [->|Hne].
      * rewrite lookup_insert_eq. intros [= Heq]. rewrite length_app in Heq.
        simpl in Heq. lia.
      * rewrite !lookup_insert_ne by done. intros Hf.
        destruct (registered_pending _ _ Hwf _ _ Hf) as [Hp _].
        apply lookup_lt_Some in Hp. lia.
    + intros Hin. apply (scheduled_created _ _ Hwf) in Hin. lia.
Qed.

(** Taking a registered request out of the registry abandons its
    future. *)
Lemma deregister_abandons rid f st :
  wf st → pending_requests st !! rid = Some f → abandoned f (deregister rid st).
Proof.
  intros Hwf Hf. destruct (registered_pending _ _ Hwf _ _ Hf) as [Hpending Hunsched].
  split; [done|]. split; [|done]. simpl. intros rid'.
  destruct (decide (rid' = rid)) as [->|Hne].
  - by rewrite lookup_delete_eq.
  - rewrite lookup_delete_ne by done. intros Hf'.
    by specialize (registered_once _ _ Hwf _ _ _ Hf' Hf).
Qed.

(** A request that gives up is gone for good, unless it was answered
    before.  The coroutine registers (line 210), the others take their
    steps while it runs its rounds, and it takes its id out again
    (line 235).  If the id is still registered on the request's own
    future at that moment, no callback for it having been accepted
    during the rounds, the future stays pending for ever: a callback
    that arrives later with the id resolves nothing. *)
Theorem failed_request_is_abandoned uuid_hex st during actions :
  wf st →
  pending_requests (run during (registered uuid_hex st)) !! new_request_id uuid_hex
    = Some (length (futures st)) →
  await_future (length (futures st))
    (run actions
       (deregister (new_request_id uuid_hex) (run during (registered uuid_hex st))))
  = None.
Proof.
  intros Hwf Hf. apply abandoned_run, deregister_abandons; [|done].
  by apply wf_run, registered_wf.
Qed.

End Abandoned.

(** ** The listener *)

(** Every way out of [start_callback_server] sets the readiness event,
    with one exception: all 50 probed ports in use, in which case the
    function returns and leaves the state as it was. *)
Theorem listener_signals_unless_exhausted env st :
  callback_server_ready (start_callback_server env st).2 = true
  ∨ start_callback_server env st = (Returned, st)
    ∧ ∀ i : nat, (i < max_retries)%nat →
        ∃ errno, bind env (CALLBACK_PORT_START + Z.of_nat i) = Raise (OSError errno)
                 ∧ address_in_use errno = true.
Proof. apply serve_loop_ready. Qed.

Lemma serve_loop_serving env retries port st p st' :
  serve_loop env retries port st = (Serving p, st') →
  port ≤ p < port + Z.of_nat retries
  ∧ bind env p = Ok tt ∧ serve_forever env p = None
  ∧ current_callback_port st' = p ∧ callback_server_ready st' = true.
Proof.
  revert port st. induction retries as [|retries IH]; intros port st; simpl; [done|].
  unfold try_serve. destruct (bind env port) as [[]|e] eqn:Hbind.
  - destruct (serve_forever env port) as [[[]|e]|] eqn:Hserve; simpl.
    + done.
    + destruct e; simpl; try done.
      destruct (address_in_use errno); simpl; [|done].
      intros Hrec. apply IH in Hrec as (? & ? & ? & ? & ?).
      repeat split; try done; lia.
    + intros [= <- <-]. repeat split; try done; lia.
  - destruct e; simpl; try done.
    destruct (address_in_use errno); simpl; [|done].
    intros Hrec. apply IH in Hrec as (? & ? & ? & ? & ?).
    repeat split; try done; lia.
Qed.

(** When the listener ends up serving, it serves on a port of the probe
    range 23984..24033 whose bind succeeded, that port is the recorded
    callback port, and readiness has been signalled. *)
Theorem listener_serves_recorded_port env st p st' :
  start_callback_server env st = (Serving p, st') →
  CALLBACK_PORT_START ≤ p < CALLBACK_PORT_START + 50
  ∧ bind env p = Ok tt ∧ serve_forever env p = None
  ∧ current_callback_port st' = p ∧ callback_server_ready st' = true.
Proof. apply serve_loop_serving. Qed.

Lemma serve_loop_recorded_port env retries port st :
  current_callback_port (serve_loop env retries port st).2 = current_callback_port st
  ∨ bind env (current_callback_port (serve_loop env retries port st).2) = Ok tt.
Proof.
  revert port st. induction retries as [|retries IH]; intros port st; simpl; [by left|].
  unfold try_serve. destruct (bind env port) as [[]|e] eqn:Hbind.
  - assert (Hafter : ∀ st2, current_callback_port st2 = port →
              current_callback_port (serve_loop env retries (port + 1) st2).2 = port
              ∨ bind env (current_callback_port
                            (serve_loop env retries (port + 1) st2).2) = Ok tt).
    { intros st2 Hport. destruct (IH (port + 1) st2) as [->|?]; [by left|by right]. }
    destruct (serve_forever env port) as [[[]|e]|]; simpl; try by right.
    destruct e; simpl; try by right.
    destruct (address_in_use errno); simpl; [|by right].
    destruct (Hafter (set_callback_server_ready (set_current_callback_port port st)))
      as [->|?]; [done|by right|by right].
  - destruct e; simpl; try by left.
    destruct (address_in_use errno); simpl; [|by left]. apply IH.
Qed.

(** The recorded callback port changes only on a successful bind: after
    [start_callback_server] it is the port recorded before, or a port the
    listener did bind.  In particular, when no bind succeeds, asks keep
    advertising the starting port 23984 although nothing listens on it
    for this process. *)
Theorem recorded_port_was_bound env st :
  (current_callback_port (start_callback_server env st).2 = current_callback_port st
   ∨ bind env (current_callback_port (start_callback_server env st).2) = Ok tt)
  ∧ ((∀ port, bind env port ≠ Ok tt) →
     ∀ request_id reason,
       ask_payload request_id reason (main_startup env).2
       = JDict [("type", JStr "ask_continue"); ("requestId", JStr request_id);
                ("reason", JStr reason); ("callbackPort", JInt 23984)]).
Proof.
  split; [apply serve_loop_recorded_port|].
  intros Hnone request_id reason. unfold ask_payload, main_startup.
  destruct (serve_loop_recorded_port env max_retries CALLBACK_PORT_START
              (record_main_loop initial_state)) as [Hsame|Hbound].
  - unfold start_callback_server. by rewrite Hsame.
  - by destruct (Hnone _ Hbound).
Qed.

(** ** Discovery *)

Lemma discover_nonempty dir : discover_extension_ports dir ≠ [].
Proof.
  unfold discover_extension_ports.
  by destruct (match dir with Some files => scan_port_files files [] | None => [] end).
Qed.

(** Discovery never returns an empty list and never a candidate that
    counts as false (a port 0, null, an empty string); with a directory
    of [n] entries it returns at most [max 1 n] candidates. *)
Theorem discover_candidates_usable dir :
  discover_extension_ports dir ≠ []
  ∧ Forall (fun port => truthy port = true) (discover_extension_ports dir)
  ∧ (length (discover_extension_ports dir)
     ≤ Nat.max 1 (length (default [] dir)))%nat.
Proof.
  assert (Hvalid : ∀ files, Forall (fun port => truthy port = true)
                              (omap marker_port files)).
  { induction files as [|file files IH]; simpl; [constructor|].
    unfold marker_port at 1. destruct (endswith _ _); [|done].
    destruct (load file) as [[| | | | | |items]|e]; try done.
    destruct (assoc "port" items) as [port|]; [|done].
    destruct (truthy port) eqn:Hport; [|done]. by constructor. }
  assert (Hlen : ∀ files, (length (omap marker_port files) ≤ length files)%nat).
  { induction files as [|file files IH]; simpl; [done|].
    unfold omap in IH. destruct (marker_port file); simpl; lia. }
  destruct dir as [files|]; unfold discover_extension_ports; simpl.
  - rewrite scan_port_files_markers. simpl.
    specialize (Hvalid files). specialize (Hlen files).
    destruct (omap marker_port files) as [|port ports]; simpl in *.
    + repeat split; try done; [by repeat constructor|lia].
    + repeat split; try done. lia.
  - repeat split; try done. by repeat constructor.
Qed.

(** ** What a request does to the world and to the state *)

Section AskEffects.
Context {rt : Runtime}.

Lemma posts_of_app t1 t2 : posts_of (t1 ++ t2) = (posts_of t1 ++ posts_of t2)%list.
Proof. apply omap_app. Qed.

Lemma posts_of_round renv request_id reason st :
  ∃ tried,
    tried ≠ []
    ∧ tried `prefix_of` discover_extension_ports (directory renv)
    ∧ posts_of (try_connect_extension renv request_id reason st).2
      = (fun p => (ask_url p, ask_payload request_id reason st)) <$> tried.
Proof.
  destruct (try_connect_extension_spec renv request_id reason st)
    as (tried & Hprefix & Htrace & Hcase).
  cbv zeta in Htrace, Hcase. exists tried. split; [|split; [done|]].
  - destruct (try_connect_extension renv request_id reason st).1.1.
    + destruct Hcase as (pre & p & -> & _). by destruct pre.
    + destruct Hcase as (-> & _).
      apply discover_nonempty.
  - rewrite Htrace. unfold posts_of. cbn [omap list_omap].
    clear. induction tried as [|p tried IH]; [done|].
    rewrite !fmap_cons. cbn [omap list_omap]. by rewrite IH.
Qed.

Lemma trace_of_retry_loop env request_id reason st attempts last_error :
  let trace := (retry_loop env request_id reason st attempts last_error).2 in
  rounds_of trace `prefix_of` attempts
  ∧ (length (sleeps_of trace) ≤ length (rounds_of trace))%nat
  ∧ Forall (fun s => s = RETRY_INTERVAL) (sleeps_of trace)
  ∧ (length (rounds_of trace) ≤ length (posts_of trace))%nat
  ∧ Forall (fun up =>
       up.2 = ask_payload request_id reason st
       ∧ ∃ k port, k ∈ attempts
                   ∧ port ∈ discover_extension_ports (directory (env k))
                   ∧ up.1 = ask_url port)
      (posts_of trace).
Proof.
  revert last_error. induction attempts as [|k rest IH]; intros last_error.
  { simpl. repeat split; try done; constructor. }
  assert (Hround : Forall (fun up =>
             up.2 = ask_payload request_id reason st
             ∧ ∃ k' port, k' ∈ k :: rest
                          ∧ port ∈ discover_extension_ports (directory (env k'))
                          ∧ up.1 = ask_url port)
            (posts_of (try_connect_extension (env k) request_id reason st).2)).
  { destruct (posts_of_round (env k) request_id reason st) as (tried & _ & Hprefix & Hposts).
    rewrite Hposts.
    apply Forall_fmap, Forall_forall. intros port Hport. simpl. split; [done|].
    exists k, port. split; [by left|]. split; [|done].
    destruct Hprefix as [more ->]. apply elem_of_app. by left. }
  assert (Hposts : (1 ≤ length (posts_of (try_connect_extension (env k) request_id
                                            reason st).2))%nat).
  { destruct (posts_of_round (env k) request_id reason st) as (tried & Hne & _ & Hposts).
    rewrite Hposts, length_fmap. destruct tried; [done|simpl; lia]. }
  assert (Hevents : posts_of (round_events env request_id reason st k)
                    = posts_of (try_connect_extension (env k) request_id reason st).2)
    by done.
  destruct (rounds_of_events env request_id reason st k) as [Hr Hs].
  destruct (round_ok env request_id reason st k) eqn:Hok.
  - rewrite retry_loop_cons_accepted by done. cbn [snd]. rewrite Hr, Hs, Hevents.
    repeat split; try done.
    + by apply prefix_cons, prefix_nil.
    + simpl. lia.
  - rewrite retry_loop_cons_failed by done. cbv zeta. cbn [snd].
    destruct (IH (round_error env request_id reason st k))
      as (Hprefix & Hlen & Hsleeps & Hmany & Hall).
    rewrite !rounds_of_app, !sleeps_of_app, !posts_of_app, Hr, Hs, Hevents.
    destruct (trace_of_pause k) as [Hpr Hps]. rewrite Hpr, Hps.
    assert (Hpp : posts_of (pause k) = []).
    { unfold pause. by destruct (Z.ltb k MAX_RETRY_COUNT). }
    rewrite Hpp. cbn [app]. repeat split.
    + by apply prefix_cons.
    + cbn [length]. destruct (Z.ltb k MAX_RETRY_COUNT); simpl; lia.
    + destruct (Z.ltb k MAX_RETRY_COUNT); [by constructor|done].
    + cbn [length]. rewrite length_app. lia.
    + apply Forall_app. split; [done|].
      eapply Forall_impl; [exact Hall|]. simpl.
      intros up (Hpayload & k' & port & Hk' & Hport & Hurl). split; [done|].
      exists k', port. split; [by right|done].
Qed.

Lemma trace_of_rounds_with_pause env request_id reason st ks :
  rounds_of (rounds_with_pause env request_id reason st ks) = ks
  ∧ sleeps_of (rounds_with_pause env request_id reason st ks)
    = replicate (length ks) RETRY_INTERVAL.
Proof.
  unfold rounds_with_pause. induction ks as [|k ks [IHr IHs]]; [done|].
  cbn [fmap list_fmap concat]. rewrite !rounds_of_app, !sleeps_of_app, IHr, IHs.
  destruct (rounds_of_events env request_id reason st k) as [-> ->]. done.
Qed.

(** In every run of a request the rounds are numbered 1 to [n] for some
    [n] between 1 and 5, and exactly [n - 1] pauses of [RETRY_INTERVAL]
    seconds are slept: the time spent sleeping is [5 * (n - 1)] seconds,
    20 when all five rounds fail. *)
Theorem pauses_between_rounds env uuid_hex reason st :
  ∃ n : nat,
    (1 ≤ n ≤ 5)%nat
    ∧ rounds_of (request_user_input env uuid_hex reason st).2 = seqZ 1 (Z.of_nat n)
    ∧ sleeps_of (request_user_input env uuid_hex reason st).2
      = replicate (n - 1) RETRY_INTERVAL
    ∧ foldr Z.add 0 (sleeps_of (request_user_input env uuid_hex reason st).2)
      = 5 * (Z.of_nat n - 1).
Proof.
  destruct (request_user_input_rounds env uuid_hex reason st)
    as (n & Hn & _ & Htrace & _). cbv zeta in Htrace.
  unfold MAX_RETRY_COUNT in Hn.
  exists (Z.to_nat n). rewrite Htrace, rounds_of_app, sleeps_of_app.
  destruct (trace_of_rounds_with_pause env (new_request_id uuid_hex) reason
              (registered uuid_hex st) (seqZ 1 (n - 1))) as [-> ->].
  destruct (rounds_of_events env (new_request_id uuid_hex) reason
              (registered uuid_hex st) n) as [-> ->].
  rewrite length_seqZ, app_nil_r, Z2Nat.id by lia.
  assert (Hcases : n = 1 ∨ n = 2 ∨ n = 3 ∨ n = 4 ∨ n = 5) by lia.
  destruct Hcases as [->|[->|[->|[->| ->]]]]; repeat split; try done; lia.
Qed.

(** Every POST a request makes carries the same payload: the type
    [ask_continue], the request's own id, the reason and the recorded
    callback port.  It goes to [http://127.0.0.1:<port>/ask] for a
    candidate discovered in one of the five rounds, and every round that
    is run makes at least one POST. *)
Theorem every_post_is_the_ask env uuid_hex reason st :
  Forall (fun up =>
      up.2 = JDict [("type", JStr "ask_continue");
                    ("requestId", JStr (new_request_id uuid_hex));
                    ("reason", JStr reason);
                    ("callbackPort", JInt (current_callback_port st))]
      ∧ ∃ k port, 1 ≤ k ≤ 5
                  ∧ port ∈ discover_extension_ports (directory (env k))
                  ∧ up.1 = ("http://127.0.0.1:" ++ py_str port ++ "/ask")%string)
    (posts_of (request_user_input env uuid_hex reason st).2)
  ∧ (length (rounds_of (request_user_input env uuid_hex reason st).2)
     ≤ length (posts_of (request_user_input env uuid_hex reason st).2))%nat.
Proof.
  rewrite request_user_input_unfold. cbv zeta.
  destruct (trace_of_retry_loop env (new_request_id uuid_hex) reason
              (registered uuid_hex st) (range 1 (MAX_RETRY_COUNT + 1)) None)
    as (_ & _ & _ & Hmany & Hall). cbv zeta in Hmany, Hall.
  destruct (retry_loop _ _ _ _ _ _) as [[[] last_error] trace]; cbn [fst snd] in *.
  all: split; [|done].
  all: eapply Forall_impl; [exact Hall|]; simpl.
  all: intros up (Hpayload & k & port & Hk & Hport & Hurl); split; [done|].
  all: exists k, port; split; [|done].
  all: rewrite attempts_range in Hk; change [1; 2; 3; 4; 5] with (seqZ 1 5) in Hk.
  all: apply elem_of_seqZ in Hk; lia.
Qed.

(** A request touches nothing but its own registry entry and the one
    future it creates.  It either goes to its wait on that fresh future
    with its id registered, or returns a failure with its id out of the
    registry; it never returns success without having waited. *)
Theorem ask_leaves_the_rest env uuid_hex reason st :
  let c := (request_user_input env uuid_hex reason st).1.1 in
  let st' := (request_user_input env uuid_hex reason st).1.2 in
  (∀ rid, rid ≠ new_request_id uuid_hex →
     pending_requests st' !! rid = pending_requests st !! rid)
  ∧ futures st' = (futures st ++ [Pending])%list
  ∧ ready st' = ready st ∧ main_loop st' = main_loop st
  ∧ current_callback_port st' = current_callback_port st
  ∧ callback_server_ready st' = callback_server_ready st
  ∧ match c with
    | AwaitFuture f =>
        f = length (futures st)
        ∧ pending_requests st' !! new_request_id uuid_hex = Some f
    | Return r =>
        r.1 = false ∧ pending_requests st' !! new_request_id uuid_hex = None
    end.
Proof.
  cbv zeta. rewrite request_user_input_unfold. cbv zeta.
  destruct (retry_loop _ _ _ _ _ _) as [[[] last_error] trace]; cbn [fst snd];
    unfold deregister, registered, register, create_future; simpl.
  - repeat split; try done.
    + intros rid Hne. by rewrite lookup_insert_ne.
    + apply lookup_insert_eq.
  - repeat split; try done.
    + intros rid Hne. by rewrite lookup_delete_ne, lookup_insert_ne.
    + apply lookup_delete_eq.
Qed.

End AskEffects.

(** ** Every state the process reaches *)

(** From startup on, whatever the listener's bind loop met and whatever
    callbacks, registrations, removals and loop iterations follow, the
    registry stays consistent and the loop reference stays recorded: no
    callback of the running process is turned away for a missing loop. *)
Theorem reachable_states_consistent {rt : Runtime} env actions :
  wf (run actions (main_startup env).2)
  ∧ main_loop (run actions (main_startup env).2) = Some RunningLoop.
Proof.
  split.
  - apply wf_run, wf_start_callback_server.
    split; simpl; try done.
    + intros f Hin. by apply elem_of_nil in Hin.
    + constructor.
  - rewrite main_loop_run. unfold main_startup, start_callback_server.
    by destruct (serve_loop_globals env max_retries CALLBACK_PORT_START
                   (record_main_loop initial_state)) as (_ & -> & _).
Qed.

(** ** The tool call *)

Section ToolCall.
Context {rt : Runtime} {tl : TextLib}.

Lemma append_assoc (s1 s2 s3 : string) :
  ((s1 ++ s2) ++ s3 = s1 ++ (s2 ++ s3))%string.
Proof.
  induction s1 as [|c s1 IH]; [done|].
  change (String c ((s1 ++ s2) ++ s3) = String c (s1 ++ (s2 ++ s3)))%string.
  by rewrite IH.
Qed.

Lemma render_files_items matches parsed_result :
  render_files matches parsed_result = (parsed_result ++ omap file_item matches)%list.
Proof.
  revert parsed_result.
  induction matches as [|[[file_type file_name] data_url] rest IH]; intros parsed_result.
  { by rewrite app_nil_r. }
  cbn [render_files omap list_omap]. unfold file_item at 1. cbn [fst snd].
  destruct (match_data_url data_url) as [[mime_type base64_data]|]; [|apply IH].
  destruct (String.prefix "image/" mime_type); rewrite IH, <- app_assoc; done.
Qed.

(** A user's cancellation is reported to the model under the heading of
    a missing connection: the tool call returns the single text
    "⚠️ VS Code 扩展未连接: 用户取消了对话" followed by the advice to check
    the extension. *)
Theorem cancellation_reported_as_not_connected req text data rid f st after :
  wf st → main_loop st ≠ None → pending_requests st !! rid = Some f →
  path req = "/response" → read_body req = Ok text →
  json_loads text = Ok (JDict data) →
  assoc "requestId" data = Some (JStr rid) →
  truthy (default (JBool false) (assoc "cancelled" data)) = true →
  call_tool_resume f (run_ready (run after (do_POST req st).2))
  = Some (Ok [TextContent (not_connected_text "用户取消了对话")]).
Proof.
  intros Hwf Hloop Hf Hpath Hbody Hload Hid Hcancel.
  destruct (callback_delivers req text data rid f st after
              Hwf Hloop Hf Hpath Hbody Hload Hid) as (st2 & Hpost & _ & Hdone).
  rewrite Hpost. cbn [snd]. unfold call_tool_resume, await_future. rewrite Hdone.
  unfold resolution. by rewrite Hcancel.
Qed.

(** When no round is accepted the tool call returns at once, with one
    text: the not-connected notice carrying the failure message of
    [request_user_input]; the request is out of the registry. *)
Theorem connect_failure_reported env uuid_hex reason st :
  (∀ k, 1 ≤ k ≤ MAX_RETRY_COUNT →
     round_ok env (new_request_id uuid_hex) (default "任务已完成" reason)
       (registered uuid_hex st) k = false) →
  (call_tool env uuid_hex "ask_continue" reason st).1
  = (ToolReturn
       (Ok [TextContent
              (not_connected_text
                 ("无法连接到 VS Code 扩展（已重试 5 次）。"
                  ++ default "" (round_error env (new_request_id uuid_hex)
                                   (default "任务已完成" reason)
                                   (registered uuid_hex st) 5)))]),
     deregister (new_request_id uuid_hex) (registered uuid_hex st)).
Proof.
  intros Hall. unfold call_tool. simpl (String.eqb _ _). cbv iota zeta.
  destruct (request_user_input_rounds env uuid_hex (default "任务已完成" reason) st)
    as (n & Hn & _ & _ & [[Hok _]|(-> & _ & Heq)]).
  { rewrite Hall in Hok; done. }
  destruct (request_user_input env uuid_hex (default "任务已完成" reason) st)
    as [[c st'] trace]. simpl in Heq. injection Heq as -> ->. done.
Qed.

(** An answer that is blank after [strip], like the empty string a
    callback without userInput stands for, ends the conversation: the tool
    call returns the single text "用户选择结束对话。本次对话结束。". *)
Theorem blank_answer_ends_conversation req text data rid f st after user_input :
  wf st → main_loop st ≠ None → pending_requests st !! rid = Some f →
  path req = "/response" → read_body req = Ok text →
  json_loads text = Ok (JDict data) →
  assoc "requestId" data = Some (JStr rid) →
  truthy (default (JBool false) (assoc "cancelled" data)) = false →
  default (JStr "") (assoc "userInput" data) = JStr user_input →
  strip user_input = "" →
  call_tool_resume f (run_ready (run after (do_POST req st).2))
  = Some (Ok [TextContent "用户选择结束对话。本次对话结束。"]).
Proof.
  intros Hwf Hloop Hf Hpath Hbody Hload Hid Hcancel Hinput Hblank.
  destruct (callback_delivers req text data rid f st after
              Hwf Hloop Hf Hpath Hbody Hload Hid) as (st2 & Hpost & _ & Hdone).
  rewrite Hpost. cbn [snd]. unfold call_tool_resume, await_future. rewrite Hdone.
  unfold resolution. rewrite Hcancel, Hinput. simpl. by rewrite Hblank.
Qed.

(** The callback handler accepts a userInput of any JSON type and answers
    200, but the tool call that receives a value other than a string
    fails on [user_input.strip()] with an [AttributeError]. *)
Theorem non_string_answer_raises req text data rid f st after user_input :
  wf st → main_loop st ≠ None → pending_requests st !! rid = Some f →
  path req = "/response" → read_body req = Ok text →
  json_loads text = Ok (JDict data) →
  assoc "requestId" data = Some (JStr rid) →
  truthy (default (JBool false) (assoc "cancelled" data)) = false →
  assoc "userInput" data = Some user_input →
  (∀ s, user_input ≠ JStr s) →
  (do_POST req st).1 = Ok success_response
  ∧ call_tool_resume f (run_ready (run after (do_POST req st).2))
    = Some (Raise (AttributeError user_input "strip")).
Proof.
  intros Hwf Hloop Hf Hpath Hbody Hload Hid Hcancel Hinput Hother.
  destruct (callback_delivers req text data rid f st after
              Hwf Hloop Hf Hpath Hbody Hload Hid) as (st2 & Hpost & _ & Hdone).
  rewrite Hpost. cbn [fst snd]. split; [done|].
  unfold call_tool_resume, await_future. rewrite Hdone.
  unfold resolution. rewrite Hcancel, Hinput. simpl.
  destruct user_input; try done. by destruct (Hother s).
Qed.

(** Every answer that is not blank comes back with the reminder to call
    the tool again: the last item returned is a text that ends in
    "这是强制要求，不可跳过！".  Without attachments the result is the one
    text that quotes the answer as it was typed; with attachments there
    are at least two items and at most two more than there are
    attachments. *)
Theorem answer_ends_with_reminder user_input :
  strip user_input ≠ "" →
  ∃ items before,
    tool_result (true, JStr user_input) = Ok items
    ∧ last items = Some (TextContent (before ++ "这是强制要求，不可跳过！"))
    ∧ (findall_files user_input = [] → items = [TextContent (text_answer user_input)])
    ∧ (findall_files user_input ≠ [] →
       2 ≤ length items ≤ 2 + length (findall_files user_input))%nat.
Proof.
  intros Hblank. unfold tool_result. cbn [negb].
  destruct (String.eqb_spec (strip user_input) ""); [done|].
  destruct (findall_files user_input) as [|m ms] eqn:Hmatches.
  - eexists.
    exists ("用户希望继续，并提供了以下指令：" ++ nl ++ nl ++ user_input ++ nl ++ nl
            ++ "⚠️【强制提醒】请立即执行以上指令。完成后你【必须】再次调用 ask_continue 工具，")%string.
    split; [done|]. split; [|done].
    cbn [last]. unfold text_answer. do 2 f_equal.
    rewrite !append_assoc. done.
  - eexists.
    exists (nl ++ nl ++ "⚠️【强制提醒】请立即执行用户指令。完成后你【必须】再次调用 ask_continue 工具，")%string.
    split; [done|]. rewrite render_files_items. split; [|split; [done|]].
    + rewrite last_snoc. done.
    + intros _. rewrite !length_app.
      assert (Hlen : ∀ l, (length (omap file_item l) ≤ length l)%nat).
      { induction l as [|x l IH]; simpl; [done|].
        unfold omap in IH. destruct (file_item x); simpl; lia. }
      specialize (Hlen (m :: ms)).
      destruct (negb _); simpl in *; lia.
Qed.

(** With attachments the result is, in this order: one text, the
    instructions left after the attachments and the upload marks are cut
    out and the rest is stripped (or a fixed line when nothing is left);
    one item per attachment whose data URL parses, an image for a MIME
    type that starts with "image/" and a text with the first 100
    characters of the data otherwise; the reminder. *)
Theorem attachments_rendered user_input m ms :
  strip user_input ≠ "" → findall_files user_input = m :: ms →
  tool_result (true, JStr user_input)
  = Ok ([TextContent
           (let text_only := strip (sub_uploaded (strip (sub_files user_input))) in
            if String.eqb text_only ""
            then "用户希望继续，并附加了文件："
            else ("用户希望继续，并提供了以下指令：" ++ nl ++ nl ++ text_only)%string)]
        ++ omap file_item (m :: ms)
        ++ [TextContent reminder_text])%list.
Proof.
  intros Hblank Hmatches. unfold tool_result. cbn [negb].
  destruct (String.eqb_spec (strip user_input) ""); [done|].
  rewrite Hmatches, render_files_items. cbv zeta. rewrite <- app_assoc.
  by destruct (String.eqb _ "").
Qed.

End ToolCall.

(** ** The further properties at concrete inputs *)

Lemma wf_two_pending : wf SampleText.two_pending.
Proof. apply registered_wf, registered_wf, wf_started. Qed.

Lemma callback_leaves_other_requests_witness :
  pending_requests
      (run_ready (do_POST (rt := SampleText.runtime)
                    (Sample.callback Sample.answer_text) SampleText.two_pending).2)
      !! SampleText.other_rid = Some 1%nat
  ∧ await_future (rt := SampleText.runtime) 1%nat
      (run_ready (do_POST (rt := SampleText.runtime)
                    (Sample.callback Sample.answer_text) SampleText.two_pending).2)
    = None
  ∧ wf (run_ready (do_POST (rt := SampleText.runtime)
                     (Sample.callback Sample.answer_text) SampleText.two_pending).2).
Proof.
  apply (callback_leaves_other_requests (rt := SampleText.runtime)
           (Sample.callback Sample.answer_text) Sample.answer_text
           [("requestId", JStr Sample.rid); ("userInput", JStr "go on");
            ("cancelled", JBool false)]
           Sample.rid 0%nat SampleText.other_rid 1%nat).
  - exact wf_two_pending.
  - discriminate.
  - vm_compute. reflexivity.
  - vm_compute. reflexivity.
  - discriminate.
  - reflexivity.
  - vm_compute. reflexivity.
  - vm_compute. reflexivity.
  - reflexivity.
Defined.

Lemma callbacks_commute_witness :
  run_ready (do_POST (rt := SampleText.runtime)
               (Sample.callback SampleText.other_answer_text)
               (do_POST (rt := SampleText.runtime)
                  (Sample.callback Sample.answer_text) SampleText.two_pending).2).2
  = run_ready (do_POST (rt := SampleText.runtime)
                 (Sample.callback Sample.answer_text)
                 (do_POST (rt := SampleText.runtime)
                    (Sample.callback SampleText.other_answer_text)
                    SampleText.two_pending).2).2.
Proof.
  apply (callbacks_commute (rt := SampleText.runtime)
           (Sample.callback Sample.answer_text) Sample.answer_text
           [("requestId", JStr Sample.rid); ("userInput", JStr "go on");
            ("cancelled", JBool false)]
           Sample.rid 0%nat
           (Sample.callback SampleText.other_answer_text) SampleText.other_answer_text
           [("requestId", JStr SampleText.other_rid); ("userInput", JStr "stop here")]
           SampleText.other_rid 1%nat).
  - exact wf_two_pending.
  - discriminate.
  - vm_compute. reflexivity.
  - vm_compute. reflexivity.
  - discriminate.
  - reflexivity.
  - vm_compute. reflexivity.
  - vm_compute. reflexivity.
  - reflexivity.
  - reflexivity.
  - vm_compute. reflexivity.
  - vm_compute. reflexivity.
  - reflexivity.
Defined.

Lemma callback_outcome_by_truthiness_witness :
  await_future (rt := SampleText.runtime) 0%nat
    (run_ready (do_POST (rt := SampleText.runtime)
                  (Sample.callback SampleText.false_string_text) Sample.one_pending).2)
  = Some (false, JStr "用户取消了对话").
Proof.
  apply (callback_outcome_by_truthiness (rt := SampleText.runtime)
           (Sample.callback SampleText.false_string_text) SampleText.false_string_text
           [("requestId", JStr Sample.rid); ("userInput", JStr "go on");
            ("cancelled", JStr "false")]
           Sample.rid 0%nat Sample.one_pending []).
  - exact wf_one_pending.
  - discriminate.
  - vm_compute. reflexivity.
  - reflexivity.
  - vm_compute. reflexivity.
  - vm_compute. reflexivity.
  - reflexivity.
Defined.

Lemma registered_request_still_waits_witness :
  await_future (rt := Sample.runtime) 0%nat
    (run (rt := Sample.runtime) [RunLoop] Sample.one_pending) = None.
Proof.
  apply (registered_request_still_waits (rt := Sample.runtime)
           [RunLoop] Sample.one_pending Sample.rid 0%nat).
  - exact wf_one_pending.
  - vm_compute. reflexivity.
Defined.

Lemma abandoned_future_never_resolves_witness :
  await_future (rt := Sample.runtime) 0%nat
    (run (rt := Sample.runtime)
       [Callback (Sample.callback Sample.answer_text); RunLoop]
       (deregister Sample.rid Sample.one_pending)) = None.
Proof.
  apply (abandoned_future_never_resolves (rt := Sample.runtime)).
  split; [reflexivity|]. split.
  - intros rid. simpl. destruct (decide (rid = Sample.rid)) as [->|Hne].
    + by rewrite lookup_delete_eq.
    + by rewrite lookup_delete_ne, lookup_singleton_ne.
  - apply not_elem_of_nil.
Defined.

Lemma colliding_id_strands_first_request_witness :
  pending_requests
      (registered SampleText.colliding_uuid_hex
         (registered Sample.uuid_hex Sample.started)) !! Sample.rid
    = Some 1%nat
  ∧ await_future (rt := Sample.runtime) 0%nat
      (run (rt := Sample.runtime)
         [Callback (Sample.callback Sample.answer_text); RunLoop]
         (registered SampleText.colliding_uuid_hex
            (registered Sample.uuid_hex Sample.started))) = None.
Proof.
  apply (colliding_id_strands_first_request (rt := Sample.runtime)
           Sample.uuid_hex SampleText.colliding_uuid_hex Sample.started).
  - exact wf_started.
  - reflexivity.
Defined.

Lemma failed_request_is_abandoned_witness :
  await_future (rt := SampleText.runtime) 0%nat
    (run (rt := SampleText.runtime)
       [Callback (Sample.callback Sample.answer_text); RunLoop]
       (deregister Sample.rid
          (run (rt := SampleText.runtime)
             [Callback (Sample.callback SampleText.other_answer_text); RunLoop]
             (registered Sample.uuid_hex Sample.started)))) = None.
Proof.
  apply (failed_request_is_abandoned (rt := SampleText.runtime)
           Sample.uuid_hex Sample.started
           [Callback (Sample.callback SampleText.other_answer_text); RunLoop]
           [Callback (Sample.callback Sample.answer_text); RunLoop]).
  - exact wf_started.
  - vm_compute. reflexivity.
Defined.

(** The condition of [failed_request_is_abandoned] is needed: a callback
    accepted while the request still runs its rounds resolves the future,
    although the request then reports a failure to connect. *)
Example callback_during_rounds_resolves :
  futures
    (run (rt := Sample.runtime)
       [Register Sample.uuid_hex; Callback (Sample.callback Sample.answer_text);
        RunLoop; Deregister Sample.rid]
       Sample.started) !! 0%nat
  = Some (Finished (JStr "go on")).
Proof. vm_compute. reflexivity. Qed.

(** A callback for a pending request that finds the loop closed: the
    answer is 400 and the request is out of the registry, with nothing
    queued for its future. *)
Example closed_loop_loses_request :
  do_POST_on (rt := Sample.runtime) LoopClosed
    (Sample.callback Sample.answer_text) Sample.one_pending
  = (Ok loop_closed_response, deregister Sample.rid Sample.one_pending).
Proof. vm_compute. reflexivity. Qed.

Lemma listener_serves_recorded_port_witness :
  CALLBACK_PORT_START ≤ 23986 < CALLBACK_PORT_START + 50
  ∧ bind Sample.two_ports_taken 23986 = Ok tt
  ∧ serve_forever Sample.two_ports_taken 23986 = None
  ∧ current_callback_port (start_callback_server Sample.two_ports_taken initial_state).2
    = 23986
  ∧ callback_server_ready (start_callback_server Sample.two_ports_taken initial_state).2
    = true.
Proof.
  apply (listener_serves_recorded_port Sample.two_ports_taken initial_state).
  reflexivity.
Defined.

Lemma cancellation_reported_as_not_connected_witness :
  call_tool_resume (rt := Sample.runtime) (tl := SampleText.library) 0%nat
    (run_ready (do_POST (rt := Sample.runtime)
                  (Sample.callback Sample.cancel_text) Sample.one_pending).2)
  = Some (Ok [TextContent (not_connected_text "用户取消了对话")]).
Proof.
  apply (cancellation_reported_as_not_connected (rt := Sample.runtime)
           (tl := SampleText.library)
           (Sample.callback Sample.cancel_text) Sample.cancel_text
           [("requestId", JStr Sample.rid); ("cancelled", JBool true)]
           Sample.rid 0%nat Sample.one_pending []).
  - exact wf_one_pending.
  - discriminate.
  - vm_compute. reflexivity.
  - reflexivity.
  - vm_compute. reflexivity.
  - vm_compute. reflexivity.
  - reflexivity.
  - reflexivity.
Defined.

Lemma connect_failure_reported_witness :
  (call_tool (rt := Sample.runtime) (tl := SampleText.library) Sample.nobody_listens
     Sample.uuid_hex "ask_continue" None Sample.started).1
  = (ToolReturn
       (Ok [TextContent
              (not_connected_text
                 "无法连接到 VS Code 扩展（已重试 5 次）。无法连接到端口 23983")]),
     deregister Sample.rid (registered Sample.uuid_hex Sample.started)).
Proof.
  apply (connect_failure_reported (rt := Sample.runtime) (tl := SampleText.library)
           Sample.nobody_listens Sample.uuid_hex None Sample.started).
  intros k _. reflexivity.
Defined.

Lemma blank_answer_ends_conversation_witness :
  call_tool_resume (rt := Sample.runtime) (tl := SampleText.library) 0%nat
    (run_ready (do_POST (rt := Sample.runtime)
                  (Sample.callback Sample.no_input_text) Sample.one_pending).2)
  = Some (Ok [TextContent "用户选择结束对话。本次对话结束。"]).
Proof.
  apply (blank_answer_ends_conversation (rt := Sample.runtime)
           (tl := SampleText.library)
           (Sample.callback Sample.no_input_text) Sample.no_input_text
           [("requestId", JStr Sample.rid)]
           Sample.rid 0%nat Sample.one_pending [] "").
  - exact wf_one_pending.
  - discriminate.
  - vm_compute. reflexivity.
  - reflexivity.
  - vm_compute. reflexivity.
  - vm_compute. reflexivity.
  - reflexivity.
  - reflexivity.
  - reflexivity.
  - reflexivity.
Defined.

Lemma non_string_answer_raises_witness :
  (do_POST (rt := SampleText.runtime)
     (Sample.callback SampleText.number_text) Sample.one_pending).1
  = Ok success_response
  ∧ call_tool_resume (rt := SampleText.runtime) (tl := SampleText.library) 0%nat
      (run_ready (do_POST (rt := SampleText.runtime)
                    (Sample.callback SampleText.number_text) Sample.one_pending).2)
    = Some (Raise (AttributeError (JInt 5) "strip")).
Proof.
  apply (non_string_answer_raises (rt := SampleText.runtime)
           (tl := SampleText.library)
           (Sample.callback SampleText.number_text) SampleText.number_text
           [("requestId", JStr Sample.rid); ("userInput", JInt 5)]
           Sample.rid 0%nat Sample.one_pending [] (JInt 5)).
  - exact wf_one_pending.
  - discriminate.
  - vm_compute. reflexivity.
  - reflexivity.
  - vm_compute. reflexivity.
  - vm_compute. reflexivity.
  - reflexivity.
  - reflexivity.
  - reflexivity.
  - discriminate.
Defined.

Lemma answer_ends_with_reminder_witness :
  ∃ items before,
    tool_result (rt := Sample.runtime) (tl := SampleText.library) (true, JStr "go on")
    = Ok items
    ∧ last items = Some (TextContent (before ++ "这是强制要求，不可跳过！"))
    ∧ (findall_files (TextLib := SampleText.library) "go on" = [] →
       items = [TextContent (text_answer "go on")])
    ∧ (findall_files (TextLib := SampleText.library) "go on" ≠ [] →
       2 ≤ length items
         ≤ 2 + length (findall_files (TextLib := SampleText.library) "go on"))%nat.
Proof.
  apply (answer_ends_with_reminder (rt := Sample.runtime) (tl := SampleText.library)
           "go on").
  vm_compute. discriminate.
Defined.

Lemma attachments_rendered_witness :
  tool_result (rt := Sample.runtime) (tl := SampleText.library)
    (true, JStr SampleText.answer_with_files)
  = Ok [ TextContent ("用户希望继续，并提供了以下指令：" ++ nl ++ nl ++ "see both");
         ImageContent "iVBORw0KGgo=" "image/png";
         TextContent (attachment_text "notes.txt" "text/plain" "aGVsbG8=");
         TextContent reminder_text ].
Proof.
  apply (attachments_rendered (rt := Sample.runtime) (tl := SampleText.library)
           SampleText.answer_with_files
           ("图片", "shot.png", SampleText.picture_url)
           [("文件", "notes.txt", SampleText.notes_url)]).
  - vm_compute. discriminate.
  - vm_compute. reflexivity.
Defined.

Example take_chars_counts_characters :
  take_chars 3 "用户取消" = "用户取" ∧ take_chars 2 "ab" = "ab" ∧ take_chars 0 "ab" = "".
Proof. repeat split; reflexivity. Qed.
